(** * models/backbone_frozen.py: frozen batch normalisation, the multi-scale
      feature extractor and the level composer

    The development follows the four classes of the Python module:
    [FrozenBatchNorm2d], [BackboneBase], [Backbone] and [Joiner].

    - A tensor is four-dimensional, [batch, channels, height, width]: a
      record of its four sizes and the function from an index to an element.
    - The arithmetic of [FrozenBatchNorm2d] is generic in the element type;
      it is instantiated with binary64 floats and with exact arithmetic on
      the real numbers extended with the IEEE special values.
    - A Python call that can raise returns a [result].
    - The dictionary of levels, whose iteration order [sorted] has to undo,
      is an association list in insertion order; the checkpoint dictionary,
      which is only looked up and deleted from, is a finite map.  Methods
      that update an argument in place return its new state.
    - The layers of the trunk and the positional encoding are functions
      from tensors to tensors; the library code the module calls
      ([torch.nn.Module._load_from_state_dict], [F.interpolate],
      torchvision's [IntermediateLayerGetter]) is written out after the
      libraries. *)

From Corelib Require Import PrimFloat.
From Stdlib Require Import Reals Lra ZArith Ascii String.
From stdpp Require Import gmap strings pretty list fin_maps sorting.

Set Default Proof Using "Type".

(** ** Python exceptions *)

Inductive exn : Type :=
  | AssertionError (msg : string)
  | TypeError (msg : string)
  | ValueError (msg : string)
  | IndexError (msg : string)
  | RuntimeError (msg : string)
  | LibraryError (msg : string).

Inductive result (A : Type) : Type :=
  | Ok (a : A)
  | Raise (e : exn).
Arguments Ok {A} a.
Arguments Raise {A} e.

#[global] Instance result_ret : MRet result := λ A a, Ok a.
#[global] Instance result_bind : MBind result := λ A B f r,
  match r with
  | Ok a => f a
  | Raise e => Raise e
  end.

Definition is_Ok {A} (r : result A) : Prop := ∃ a, r = Ok a.
Definition raises {A} (r : result A) : Prop := ∃ e, r = Raise e.

(** [assert c, msg] *)
Definition py_assert (c : bool) (msg : string) : result unit :=
  if c then Ok tt else Raise (AssertionError msg).

(** ** Four-dimensional tensors, shape [batch, channels, height, width] *)

Record Tensor (A : Type) : Type := mkTensor {
  tB : nat;
  tC : nat;
  tH : nat;
  tW : nat;
  tat : nat → nat → nat → nat → A
}.
Arguments mkTensor {A} tB tC tH tW tat.
Arguments tB {A} t.
Arguments tC {A} t.
Arguments tH {A} t.
Arguments tW {A} t.
Arguments tat {A} t b c h w.

Definition shape {A} (t : Tensor A) : list nat := [tB t; tC t; tH t; tW t].

(** [x.shape[-2:]] *)
Definition shape_last2 {A} (t : Tensor A) : nat * nat := (tH t, tW t).

Definition tmap {A B} (f : A → B) (t : Tensor A) : Tensor B :=
  mkTensor (tB t) (tC t) (tH t) (tW t) (λ b c h w, f (tat t b c h w)).

(** Broadcasting of two sizes of one dimension: they agree, or one of them
    is 1 and is stretched to the other. *)
Definition broadcast_dim (a b : nat) : result nat :=
  if decide (a = b) then Ok a
  else if decide (a = 1) then Ok b
  else if decide (b = 1) then Ok a
  else Raise (RuntimeError "The size of tensor a must match the size of tensor b").

(** A dimension of size 1 is read at index 0 whatever the output index. *)
Definition bidx (d i : nat) : nat := if decide (d = 1) then 0 else i.

(** An element-wise binary operator on two broadcastable tensors. *)
Definition broadcast2 {A} (f : A → A → A) (x y : Tensor A) : result (Tensor A) :=
  b ← broadcast_dim (tB x) (tB y);
  c ← broadcast_dim (tC x) (tC y);
  h ← broadcast_dim (tH x) (tH y);
  w ← broadcast_dim (tW x) (tW y);
  mret (mkTensor b c h w (λ i j k l,
    f (tat x (bidx (tB x) i) (bidx (tC x) j) (bidx (tH x) k) (bidx (tW x) l))
      (tat y (bidx (tB y) i) (bidx (tC y) j) (bidx (tH y) k) (bidx (tW y) l)))).

(** ** Element types

    The arithmetic the operator needs from a torch dtype. *)
Class Dtype (A : Type) : Type := {
  tzero : A;
  tone : A;
  tadd : A → A → A;
  tsub : A → A → A;
  tmul : A → A → A;
  trsqrt : A → A
}.

(** IEEE 754 binary64 ([torch.float64]); the reciprocal square root is
    [1 / sqrt v]. *)
#[global] Instance float64_dtype : Dtype float := {|
  tzero := 0%float;
  tone := 1%float;
  tadd := PrimFloat.add;
  tsub := PrimFloat.sub;
  tmul := PrimFloat.mul;
  trsqrt := λ v, PrimFloat.div 1%float (PrimFloat.sqrt v)
|}.

(** Exact arithmetic extended with the IEEE special values: an operation
    yields an infinity or a NaN exactly where IEEE arithmetic does so
    without rounding (division by zero, square root of a negative number,
    [inf - inf], [0 * inf]). *)
Inductive xreal : Type :=
  | Fin (r : R)
  | PInf
  | NInf
  | NaN.

Definition xneg (a : xreal) : xreal :=
  match a with
  | Fin r => Fin (- r)
  | PInf => NInf
  | NInf => PInf
  | NaN => NaN
  end.

Definition xadd (a b : xreal) : xreal :=
  match a, b with
  | NaN, _ | _, NaN => NaN
  | Fin r, Fin s => Fin (r + s)
  | PInf, NInf | NInf, PInf => NaN
  | PInf, _ | _, PInf => PInf
  | NInf, _ | _, NInf => NInf
  end.

(** The product of an infinity of sign [pos] with the finite [r]. *)
Definition xinf_times (pos : bool) (r : R) : xreal :=
  if Rlt_dec 0 r then (if pos then PInf else NInf)
  else if Rlt_dec r 0 then (if pos then NInf else PInf)
  else NaN.

Definition xmul (a b : xreal) : xreal :=
  match a, b with
  | NaN, _ | _, NaN => NaN
  | Fin r, Fin s => Fin (r * s)
  | PInf, Fin r | Fin r, PInf => xinf_times true r
  | NInf, Fin r | Fin r, NInf => xinf_times false r
  | PInf, PInf | NInf, NInf => PInf
  | PInf, NInf | NInf, PInf => NInf
  end.

Definition xrsqrt (a : xreal) : xreal :=
  match a with
  | Fin r => if Rlt_dec 0 r then Fin (/ sqrt r)
             else if Rlt_dec r 0 then NaN
             else PInf
  | PInf => Fin 0
  | NInf | NaN => NaN
  end.

#[global] Instance xreal_dtype : Dtype xreal := {|
  tzero := Fin 0;
  tone := Fin 1;
  tadd := xadd;
  tsub := λ a b, xadd a (xneg b);
  tmul := xmul;
  trsqrt := xrsqrt
|}.

Definition xfinite (a : xreal) : Prop := ∃ r, a = Fin r.

(** ** [class FrozenBatchNorm2d] *)

Module FrozenBatchNorm2d.
Section defs.
Context {A : Type} `{!Dtype A}.

(** The four registered buffers, each a one-dimensional tensor, and
    [self.eps]. *)
Record t : Type := mk {
  weight : list A;
  bias : list A;
  running_mean : list A;
  running_var : list A;
  eps : A
}.

(** [__init__(self, n, eps)] *)
Definition init (n : nat) (eps : A) : t := {|
  weight := replicate n tone;
  bias := replicate n tzero;
  running_mean := replicate n tzero;
  running_var := replicate n tone;
  eps := eps
|}.

(** [buf.reshape(1, -1, 1, 1)] *)
Definition reshape_1C11 (buf : list A) : Tensor A :=
  mkTensor 1 (length buf) 1 1 (λ _ c _ _, nth c buf tzero).

(** [forward(self, x)] *)
Definition forward (self : t) (x : Tensor A) : result (Tensor A) :=
  let w := reshape_1C11 (weight self) in
  let b := reshape_1C11 (bias self) in
  let rv := reshape_1C11 (running_var self) in
  let rm := reshape_1C11 (running_mean self) in
  let eps := eps self in
  scale ← broadcast2 tmul w (tmap trsqrt (tmap (λ v, tadd v eps) rv));
  bias ← (rm_scale ← broadcast2 tmul rm scale; broadcast2 tsub b rm_scale);
  x_scale ← broadcast2 tmul x scale;
  broadcast2 tadd x_scale bias.

(** *** Restoring a checkpoint *)

(** A tensor stored in a checkpoint: its shape and its elements. *)
Record ckpt_tensor : Type := mk_ckpt {
  ck_shape : list nat;
  ck_data : list A
}.

(** What [_load_from_state_dict] reads and updates in place: the caller's
    dictionary and the three lists the caller passes to collect problems. *)
Record load_io : Type := mk_io {
  state_dict : gmap string ckpt_tensor;
  missing_keys : list string;
  unexpected_keys : list string;
  error_msgs : list string
}.

(** [key[len(prefix):]] *)
Fixpoint string_drop (n : nat) (s : string) : string :=
  match n, s with
  | S n', String _ s' => string_drop n' s'
  | _, _ => s
  end.

(** [input_name.split('.', 1)[0]] *)
Fixpoint before_dot (s : string) : string :=
  match s with
  | EmptyString => EmptyString
  | String c s' => if Ascii.eqb c "."%char then EmptyString else String c (before_dot s')
  end.

(** Whether [input_name.split('.', 1)] has a second part. *)
Fixpoint has_dot (s : string) : bool :=
  match s with
  | EmptyString => false
  | String c s' => Ascii.eqb c "."%char || has_dot s'
  end.

(** [str(shape)] for a [torch.Size]. *)
Definition show_size (shape : list nat) : string :=
  "torch.Size([" +:+ String.concat ", " (pretty <$> shape) +:+ "])".

(** The message of a tensor whose shape is not that of the buffer. *)
Definition size_mismatch (key : string) (input_shape param_shape : list nat) : string :=
  "size mismatch for " +:+ key +:+ ": copying a param with shape "
  +:+ show_size input_shape +:+ " from checkpoint, the shape in current model is "
  +:+ show_size param_shape +:+ ".".

(** The names of [local_state]: the module has no parameters, and its
    persistent buffers are the four of [__init__], in registration order. *)
Definition local_names : list string :=
  ["weight"; "bias"; "running_mean"; "running_var"].

(** One round of the loop over [local_state.items()] of
    [torch.nn.Module._load_from_state_dict]: a tensor found under
    [prefix + name] is copied into the buffer when the shapes agree and
    reported in [error_msgs] otherwise; a key that is not found is reported
    in [missing_keys] when [strict].  The tensors of the checkpoint have the
    element type of the buffers, so that [copy_] copies the elements as
    they are. *)
Definition load_local (sd : gmap string ckpt_tensor) (prefix : string) (strict : bool)
    (name : string) (param : list A) (missing errors : list string)
    : list A * list string * list string :=
  let key := prefix +:+ name in
  match sd !! key with
  | Some input_param =>
      if decide (ck_shape input_param = [length param])
      then (ck_data input_param, missing, errors)
      else (param, missing,
            errors ++ [size_mismatch key (ck_shape input_param) [length param]])
  | None => (param, if strict then missing ++ [key] else missing, errors)
  end.

(** The test of the loop over [state_dict.keys()] that fills
    [unexpected_keys]: a key under the prefix with a further dot has to
    name a child module, and the module has none; a key without one has to
    name a member of [local_state]. *)
Definition is_unexpected (prefix key : string) : bool :=
  String.prefix prefix key
  && (let input_name := string_drop (String.length prefix) key in
      if has_dot input_name then true
      else negb (bool_decide (before_dot input_name ∈ local_names))).

(** [torch.nn.Module._load_from_state_dict], the method of the base class,
    for a module with these four buffers, no parameters, no children and no
    hooks.  It reads [state_dict] and leaves it as it is. *)
Definition Module_load_from_state_dict (self : t) (io : load_io) (prefix : string)
    (strict : bool) : t * load_io :=
  let sd := state_dict io in
  let '(w, missing, errors) :=
    load_local sd prefix strict "weight" (weight self) (missing_keys io) (error_msgs io) in
  let '(b, missing, errors) :=
    load_local sd prefix strict "bias" (bias self) missing errors in
  let '(rm, missing, errors) :=
    load_local sd prefix strict "running_mean" (running_mean self) missing errors in
  let '(rv, missing, errors) :=
    load_local sd prefix strict "running_var" (running_var self) missing errors in
  let unexpected :=
    if strict
    then unexpected_keys io ++ filter (λ key, is_unexpected prefix key = true) (map fst (map_to_list sd))
    else unexpected_keys io in
  (mk w b rm rv (eps self), mk_io sd missing unexpected errors).

(** [_load_from_state_dict(self, state_dict, prefix, local_metadata, strict,
    missing_keys, unexpected_keys, error_msgs)] *)
Definition _load_from_state_dict (self : t) (io : load_io) (prefix : string)
    (strict : bool) : t * load_io :=
  let num_batches_tracked_key := prefix +:+ "num_batches_tracked" in
  let state_dict' :=
    if decide (is_Some (state_dict io !! num_batches_tracked_key))
    then delete num_batches_tracked_key (state_dict io)
    else state_dict io in
  Module_load_from_state_dict self
    (mk_io state_dict' (missing_keys io) (unexpected_keys io) (error_msgs io))
    prefix strict.

End defs.
Arguments t A : clear implicits.
Arguments ckpt_tensor A : clear implicits.
Arguments load_io A : clear implicits.
End FrozenBatchNorm2d.

(** ** Feature maps, masks and [NestedTensor] *)

Inductive dtype : Type := float16 | bfloat16 | float32 | float64.

#[global] Instance dtype_eq_dec : EqDecision dtype.
Proof. solve_decision. Defined.

(** A padding mask, shape [batch, height, width]. *)
Record Mask : Type := mkMask {
  mB : nat;
  mH : nat;
  mW : nat;
  mat : nat → nat → nat → bool
}.

(** [m[None]] on a tensor: a leading dimension of size 1. *)
Definition unsqueeze0 (m : Mask) : Tensor bool :=
  mkTensor 1 (mB m) (mH m) (mW m) (λ _ b h w, mat m b h w).

(** [t[0]] *)
Definition getitem_0 (t : Tensor bool) : result Mask :=
  if decide (tB t = 0)
  then Raise (IndexError "index 0 is out of bounds for dimension 0 with size 0")
  else Ok (mkMask (tC t) (tH t) (tW t) (λ b h w, tat t 0 b h w)).

(** [.float()] and [.to(torch.bool)] on the values of a mask. *)
Definition bool_to_float (b : bool) : float := if b then 1%float else 0%float.
Definition float_to_bool (v : float) : bool := negb (PrimFloat.eqb v 0%float).

(** The source index nearest-neighbour interpolation reads for the output
    index [dst]: [min(floor(dst * in_size / out_size), in_size - 1)], with the
    quotient computed exactly.  torch computes [in_size / out_size] and the
    product in [float32], which for some pairs of sizes reads the pixel next
    to this one; the two agree when [in_size] is a multiple of [out_size]. *)
Definition nearest_idx (dst in_size out_size : nat) : nat :=
  Nat.min (dst * in_size / out_size) (in_size - 1).

(** [F.interpolate(input, size=size)] in its default mode, nearest
    neighbour.  torch refuses an input with an empty non-batch dimension
    and an output size of 0. *)
Definition interpolate {A} (input : Tensor A) (size : nat * nat) : result (Tensor A) :=
  let '(h, w) := size in
  if decide (tC input = 0 ∨ tH input = 0 ∨ tW input = 0)
  then Raise (RuntimeError "Non-empty 4D data tensor expected")
  else if decide (h = 0 ∨ w = 0)
  then Raise (RuntimeError "Input and output sizes should be greater than 0")
  else Ok (mkTensor (tB input) (tC input) h w (λ b c i j,
         tat input b c (nearest_idx i (tH input) h) (nearest_idx j (tW input) w))).

(** ** Dictionaries in insertion order *)

Definition dict (V : Type) : Type := list (string * V).

Fixpoint dict_get {V} (k : string) (d : dict V) : option V :=
  match d with
  | [] => None
  | (k', v) :: d' => if String.eqb k k' then Some v else dict_get k d'
  end.

(** [d[k] = v]: an existing key keeps its place, a new key goes last. *)
Fixpoint dict_set {V} (k : string) (v : V) (d : dict V) : dict V :=
  match d with
  | [] => [(k, v)]
  | (k', v') :: d' => if String.eqb k k' then (k, v) :: d' else (k', v') :: dict_set k v d'
  end.

(** [del d[k]] for a key that may be absent. *)
Fixpoint dict_del {V} (k : string) (d : dict V) : dict V :=
  match d with
  | [] => []
  | (k', v) :: d' => if String.eqb k k' then d' else (k', v) :: dict_del k d'
  end.

Definition dict_keys {V} (d : dict V) : list string := d.*1.

(** The order [sorted] puts the items of a dictionary in: tuples compare
    by their first component, and two items of a dictionary never share
    it. *)
Definition item_le {V} (a b : string * V) : Prop := String.leb a.1 b.1 = true.

#[global] Instance item_le_dec {V} (a b : string * V) : Decision (item_le a b).
Proof. unfold item_le. apply _. Defined.

(** [sorted(xs.items())] *)
Definition sorted_items {V} (xs : dict V) : list (string * V) :=
  merge_sort item_le xs.

Section extractor.
Context {elt : Type}.

(** Conversion of an element to a dtype. *)
Variable cast : dtype → elt → elt.

Record FloatTensor : Type := mkFT {
  ft_dtype : dtype;
  ft_val : Tensor elt
}.

(** [t.to(d)] *)
Definition tensor_to (t : FloatTensor) (d : dtype) : FloatTensor :=
  if decide (ft_dtype t = d) then t else mkFT d (tmap (cast d) (ft_val t)).

(** [util.misc.NestedTensor]: a batch of padded images and its mask. *)
Record NestedTensor : Type := mkNestedTensor {
  tensors : FloatTensor;
  mask : option Mask
}.

(** [m[None]] where [m] may be [None]. *)
Definition getitem_None (m : option Mask) : result (Tensor bool) :=
  match m with
  | Some m => Ok (unsqueeze0 m)
  | None => Raise (TypeError "'NoneType' object is not subscriptable")
  end.

(** [F.interpolate(m[None].float(), size=x.shape[-2:]).to(torch.bool)[0]] *)
Definition interpolate_mask (m : option Mask) (x : FloatTensor) : result Mask :=
  m1 ← getitem_None m;
  r ← interpolate (tmap bool_to_float m1) (shape_last2 (ft_val x));
  getitem_0 (tmap float_to_bool r).

(** ** The trunk: a torchvision ResNet and [IntermediateLayerGetter] *)

(** A child module of the trunk, applied to a feature map. *)
Definition Layer : Type := FloatTensor → FloatTensor.

Record ResNet : Type := mkResNet {
  conv1 : Layer;
  bn1 : Layer;
  relu : Layer;
  maxpool : Layer;
  layer1 : Layer;
  layer2 : Layer;
  layer3 : Layer;
  layer4 : Layer;
  avgpool : Layer;
  fc : Layer
}.

Definition named_children (net : ResNet) : list (string * Layer) :=
  [("conv1", conv1 net); ("bn1", bn1 net); ("relu", relu net);
   ("maxpool", maxpool net); ("layer1", layer1 net); ("layer2", layer2 net);
   ("layer3", layer3 net); ("layer4", layer4 net); ("avgpool", avgpool net);
   ("fc", fc net)].

Record IntermediateLayerGetter : Type := mkILG {
  ilg_layers : list (string * Layer);
  return_layers : dict string
}.

(** The loop of [IntermediateLayerGetter.__init__]: children are kept up to
    the one that empties the copy of [return_layers]. *)
Fixpoint ilg_keep (children : list (string * Layer)) (remaining : dict string)
    : list (string * Layer) :=
  match children with
  | [] => []
  | (name, module) :: rest =>
      let remaining' := dict_del name remaining in
      (name, module) ::
        match remaining' with
        | [] => []
        | _ :: _ => ilg_keep rest remaining'
        end
  end.

Definition IntermediateLayerGetter_init (model : ResNet) (return_layers : dict string)
    : result IntermediateLayerGetter :=
  if forallb (λ k, existsb (String.eqb k) (named_children model).*1) (dict_keys return_layers)
  then Ok (mkILG (ilg_keep (named_children model) return_layers) return_layers)
  else Raise (ValueError "return_layers are not present in model").

Fixpoint ilg_run (layers : list (string * Layer)) (return_layers : dict string)
    (x : FloatTensor) (out : dict FloatTensor) : dict FloatTensor :=
  match layers with
  | [] => out
  | (name, module) :: rest =>
      let x := module x in
      let out :=
        match dict_get name return_layers with
        | Some out_name => dict_set out_name x out
        | None => out
        end in
      ilg_run rest return_layers x out
  end.

(** [IntermediateLayerGetter.forward] *)
Definition IntermediateLayerGetter_forward (self : IntermediateLayerGetter)
    (x : FloatTensor) : dict FloatTensor :=
  ilg_run (ilg_layers self) (return_layers self) x [].

(** ** [class BackboneBase] *)

(** The attributes of an extractor that its methods read; [self.args],
    which is stored and not read in this module, is left out. *)
Record BackboneBase : Type := mkBackboneBase {
  backbone : ResNet;
  strides : list Z;
  num_channels : list Z;
  body : IntermediateLayerGetter
}.

(** [BackboneBase.__init__(self, backbone, train_backbone,
    return_interm_layers, args)]; [train_backbone] is read only by code that
    is commented out. *)
Definition BackboneBase_init (backbone : ResNet) (train_backbone : bool)
    (return_interm_layers : bool) : result BackboneBase :=
  let '(return_layers, strides, num_channels) :=
    if return_interm_layers
    then ([("layer2", "0"); ("layer3", "1"); ("layer4", "2")],
          [8; 16; 32]%Z, [512; 1024; 2048]%Z)
    else ([("layer4", "0")], [32]%Z, [2048]%Z) in
  body ← IntermediateLayerGetter_init backbone return_layers;
  mret (mkBackboneBase backbone strides num_channels body).

(** [BackboneBase.support_encoding_net(self, x, return_interm_layers)] *)
Definition support_encoding_net (self : BackboneBase) (x : NestedTensor)
    (return_interm_layers : bool) : result (dict NestedTensor) :=
  let out : dict NestedTensor := [] in
  let m := mask x in
  let x := conv1 (backbone self) (tensors x) in
  let x := bn1 (backbone self) x in
  let x := relu (backbone self) x in
  let x := maxpool (backbone self) x in
  let x := layer1 (backbone self) x in
  let x := layer2 (backbone self) x in
  out ← (if return_interm_layers
         then mask ← interpolate_mask m x;
              mret (dict_set "0" (mkNestedTensor x (Some mask)) out)
         else mret out);
  let x := layer3 (backbone self) x in
  out ← (if return_interm_layers
         then mask ← interpolate_mask m x;
              mret (dict_set "1" (mkNestedTensor x (Some mask)) out)
         else mret out);
  let x := layer4 (backbone self) x in
  out ← (if return_interm_layers
         then mask ← interpolate_mask m x;
              mret (dict_set "2" (mkNestedTensor x (Some mask)) out)
         else mret out);
  if return_interm_layers
  then mret out
  else mask ← interpolate_mask m x;
       mret (dict_set "0" (mkNestedTensor x (Some mask)) out).

(** The loop of [BackboneBase.forward] over [xs.items()]. *)
Fixpoint forward_loop (m : option Mask) (xs : dict FloatTensor)
    (out : dict NestedTensor) : result (dict NestedTensor) :=
  match xs with
  | [] => Ok out
  | (name, x) :: rest =>
      _ ← py_assert (bool_decide (is_Some m)) "";
      mask ← interpolate_mask m x;
      forward_loop m rest (dict_set name (mkNestedTensor x (Some mask)) out)
  end.

(** [BackboneBase.forward(self, tensor_list)] *)
Definition BackboneBase_forward (self : BackboneBase) (tensor_list : NestedTensor)
    : result (dict NestedTensor) :=
  let xs := IntermediateLayerGetter_forward (body self) (tensors tensor_list) in
  forward_loop (mask tensor_list) xs [].

(** ** [class Backbone] *)

(** [getattr(torchvision.models, name)(replace_stride_with_dilation=...,
    pretrained=..., norm_layer=FrozenBatchNorm2d)]: the trunk torchvision
    builds, or the exception it raises. *)
Variable torchvision_models : string → list bool → bool → result ResNet.

(** [util.misc.is_main_process()] *)
Variable is_main_process : bool.

(** [self.strides[-1] = self.strides[-1] // 2] *)
Definition halve_last_stride (strides : list Z) : result (list Z) :=
  match last strides with
  | Some s => Ok (<[pred (length strides) := (s `div` 2)%Z]> strides)
  | None => Raise (IndexError "list index out of range")
  end.

(** [Backbone.__init__(self, name, train_backbone, return_interm_layers,
    args)], where [dilation] is [args.dilation]. *)
Definition Backbone_init (name : string) (train_backbone : bool)
    (return_interm_layers : bool) (dilation : bool) : result BackboneBase :=
  net ← torchvision_models name [false; false; dilation] is_main_process;
  _ ← py_assert (negb (bool_decide (name ∈ ["resnet18"; "resnet34"])))
        "number of channels are hard coded, cannot use res18 & res34.";
  self ← BackboneBase_init net train_backbone return_interm_layers;
  if dilation
  then strides' ← halve_last_stride (strides self);
       mret (mkBackboneBase (backbone self) strides' (num_channels self) (body self))
  else mret self.

(** ** [class Joiner] *)

Record Joiner : Type := mkJoiner {
  joiner_0 : BackboneBase;
  joiner_1 : NestedTensor → FloatTensor;
  joiner_strides : list Z;
  joiner_num_channels : list Z
}.

(** [Joiner.__init__(self, backbone, position_embedding)] *)
Definition Joiner_init (backbone : BackboneBase)
    (position_embedding : NestedTensor → FloatTensor) : Joiner :=
  mkJoiner backbone position_embedding (strides backbone) (num_channels backbone).

(** [Joiner.forward(self, tensor_list)] *)
Definition Joiner_forward (self : Joiner) (tensor_list : NestedTensor)
    : result (list NestedTensor * list FloatTensor) :=
  xs ← BackboneBase_forward (joiner_0 self) tensor_list;
  let out := (sorted_items xs).*2 in
  let pos := map (λ x, tensor_to (joiner_1 self x) (ft_dtype (tensors x))) out in
  mret (out, pos).

(** [Joiner.forward_supp_branch(self, tensor_list, return_interm_layers)] *)
Definition Joiner_forward_supp_branch (self : Joiner) (tensor_list : NestedTensor)
    (return_interm_layers : bool) : result (list NestedTensor * list FloatTensor) :=
  xs ← support_encoding_net (joiner_0 self) tensor_list return_interm_layers;
  let out := (sorted_items xs).*2 in
  let pos := map (λ x, tensor_to (joiner_1 self x) (ft_dtype (tensors x))) out in
  mret (out, pos).

End extractor.

(** * Properties *)

(** ** Broadcasting *)

Lemma broadcast_dim_same (a : nat) : broadcast_dim a a = Ok a.
Proof. unfold broadcast_dim. by rewrite decide_True. Qed.

Lemma broadcast_dim_one_r (a : nat) : broadcast_dim a 1 = Ok a.
Proof.
  unfold broadcast_dim. destruct (decide (a = 1)) as [->|Ha]; [done|].
  by rewrite decide_True.
Qed.

Lemma broadcast_dim_mismatch (a b : nat) :
  a ≠ b → a ≠ 1 → b ≠ 1 → raises (broadcast_dim a b).
Proof. intros. unfold broadcast_dim. rewrite !decide_False by done. by eexists. Qed.

Lemma bidx_lt (d i : nat) : i < d → bidx d i = i.
Proof. unfold bidx. intros Hi. case_decide; lia. Qed.

Lemma bidx_idemp (d i : nat) : bidx d (bidx d i) = bidx d i.
Proof. unfold bidx. by case_decide. Qed.

(** A tensor of shape [(B, C, H, W)] combined with one of shape
    [(1, C, 1, 1)]: the shape of the former, the latter read per channel. *)
Lemma broadcast2_per_channel {A} (f : A → A → A) (x s : Tensor A) :
  tB s = 1 → tC s = tC x → tH s = 1 → tW s = 1 →
  broadcast2 f x s =
    Ok (mkTensor (tB x) (tC x) (tH x) (tW x) (λ i j k l,
      f (tat x (bidx (tB x) i) (bidx (tC x) j) (bidx (tH x) k) (bidx (tW x) l))
        (tat s 0 (bidx (tC x) j) 0 0))).
Proof.
  intros HB HC HH HW. unfold broadcast2.
  rewrite HB, HC, HH, HW, !broadcast_dim_one_r, broadcast_dim_same. done.
Qed.

Lemma broadcast2_mismatch {A} (f : A → A → A) (x s : Tensor A) :
  tB s = 1 → tC x ≠ tC s → tC x ≠ 1 → tC s ≠ 1 → raises (broadcast2 f x s).
Proof.
  intros HB Hne Hx Hs. unfold broadcast2.
  rewrite HB, broadcast_dim_one_r. simpl.
  destruct (broadcast_dim_mismatch (tC x) (tC s)) as [e ->]; [done..|]. by eexists.
Qed.

(** ** The frozen normalisation operator *)

Module FrozenBatchNorm2dFacts.
Import FrozenBatchNorm2d.

(** The module holds statistics for [n] channels. *)
Definition num_features {A} (self : t A) (n : nat) : Prop :=
  length (weight self) = n ∧ length (bias self) = n
  ∧ length (running_mean self) = n ∧ length (running_var self) = n.

Lemma init_num_features {A} `{!Dtype A} (n : nat) (e : A) :
  num_features (init n e) n.
Proof. unfold num_features, init; simpl. by rewrite !length_replicate. Qed.

(** What [forward] computes on an input with as many channels as the
    module, for any element type. *)
Lemma forward_per_channel {A} `{!Dtype A} (self : t A) (x : Tensor A) :
  num_features self (tC x) →
  ∃ y, forward self x = Ok y ∧ shape y = shape x ∧
    ∀ i j k l,
      let c := bidx (tC x) j in
      let scale := tmul (nth c (weight self) tzero)
                        (trsqrt (tadd (nth c (running_var self) tzero) (eps self))) in
      tat y i j k l =
        tadd (tmul (tat x (bidx (tB x) i) c (bidx (tH x) k) (bidx (tW x) l)) scale)
             (tsub (nth c (bias self) tzero)
                   (tmul (nth c (running_mean self) tzero) scale)).
Proof.
  intros (Hw & Hb & Hrm & Hrv). unfold forward.
  rewrite (broadcast2_per_channel tmul (reshape_1C11 (weight self))); simpl; try congruence.
  rewrite (broadcast2_per_channel tmul (reshape_1C11 (running_mean self))); simpl; try congruence.
  rewrite (broadcast2_per_channel tsub (reshape_1C11 (bias self))); simpl; try congruence.
  rewrite (broadcast2_per_channel tmul x); simpl; try congruence.
  rewrite broadcast2_per_channel; simpl; try congruence.
  eexists; split; [reflexivity|]. split; [done|].
  intros i j k l. simpl. rewrite Hw, Hb, Hrm, !bidx_idemp. done.
Qed.
(** *** The affine formula *)


(** A module and an input in binary64 on which multiplying by the
    reciprocal square root and dividing by the square root round apart. *)
#[local] Set Warnings "-inexact-float".
#[local] Set Warnings "inexact-float".




(** In exact arithmetic the two agree: for finite statistics and a
    positive [running_var[c] + eps], a finite input value [r] is mapped to
    the finite [r * scale + (bias[c] - running_mean[c] * scale)] with
    [scale = weight[c] / sqrt(running_var[c] + eps)]. *)
Lemma forward_affine_exact (self : t xreal) (x : Tensor xreal) (b c h w : nat)
    (wc bc mc vc e r : R) :
  num_features self (tC x) →
  b < tB x → c < tC x → h < tH x → w < tW x →
  nth c (weight self) (Fin 0) = Fin wc → nth c (bias self) (Fin 0) = Fin bc →
  nth c (running_mean self) (Fin 0) = Fin mc → nth c (running_var self) (Fin 0) = Fin vc →
  eps self = Fin e → (0 < vc + e)%R →
  tat x b c h w = Fin r →
  ∃ y, forward self x = Ok y
    ∧ tat y b c h w = Fin (r * (wc / sqrt (vc + e)) + (bc - mc * (wc / sqrt (vc + e)))).
Proof.
  intros Hn Hb Hc Hh Hw Ew Eb Em Ev Ee Hpos Ex.
  destruct (forward_per_channel self x Hn) as (y & Hy & _ & Hval).
  exists y. split; [done|]. rewrite Hval. simpl.
  rewrite !bidx_lt by done. rewrite Ew, Eb, Em, Ev, Ee, Ex. simpl.
  destruct (Rlt_dec 0 (vc + e)) as [_|Hneg]; [|done]. reflexivity.
Qed.

(** A module for [n] channels refuses an input with another number of
    channels, unless one of the two numbers is 1. *)
Lemma forward_channel_mismatch {A} `{!Dtype A} (self : t A) (x : Tensor A) (n : nat) :
  num_features self n → n ≠ tC x → n ≠ 1 → tC x ≠ 1 → raises (forward self x).
Proof.
  intros (Hw & Hb & Hrm & Hrv) Hne Hn1 Hx1. unfold forward.
  rewrite (broadcast2_per_channel tmul (reshape_1C11 (weight self))); simpl; try congruence.
  rewrite (broadcast2_per_channel tmul (reshape_1C11 (running_mean self))); simpl; try congruence.
  rewrite (broadcast2_per_channel tsub (reshape_1C11 (bias self))); simpl; try congruence.
  edestruct (broadcast2_mismatch tmul x) as [e ->]; [..|by eexists]; simpl; congruence.
Qed.

(** *** Finiteness of the output *)

(** In binary64 a module with zero variance and the default [eps] scales
    its input by about 316: a finite input of 1e307 overflows. *)
#[local] Set Warnings "-inexact-float".
Definition zero_variance_bn : t float :=
  mk [1%float] [0%float] [0%float] [0%float] 1e-5%float.
Definition large_input : Tensor float :=
  mkTensor 1 1 1 1 (λ _ _ _ _, 1e307%float).
#[local] Set Warnings "inexact-float".

(** C2, as stated, fails: the variance is 0, [eps] is positive, the
    parameters and the input are finite, and the output is infinite. *)
Lemma forward_float64_overflow :
  num_features zero_variance_bn (tC large_input)
  ∧ Forall (λ v, PrimFloat.is_finite v = true)
      (weight zero_variance_bn ++ bias zero_variance_bn ++ running_mean zero_variance_bn)
  ∧ Forall (λ v, PrimFloat.leb 0 v = true) (running_var zero_variance_bn)
  ∧ PrimFloat.ltb 0 (eps zero_variance_bn) = true
  ∧ PrimFloat.is_finite (tat large_input 0 0 0 0) = true
  ∧ ∃ y, forward zero_variance_bn large_input = Ok y
      ∧ PrimFloat.is_infinity (tat y 0 0 0 0) = true
      ∧ PrimFloat.is_finite (tat y 0 0 0 0) = false.
Proof.
  split; [by repeat split|].
  split; [by repeat constructor|].
  split; [by repeat constructor|].
  split; [by vm_compute|].
  split; [by vm_compute|].
  eexists. split; [by vm_compute|]. split; by vm_compute.
Qed.

Definition xnonneg (a : xreal) : Prop := ∃ r, a = Fin r ∧ (0 <= r)%R.
Definition xpositive (a : xreal) : Prop := ∃ r, a = Fin r ∧ (0 < r)%R.

Lemma xrsqrt_positive (a : xreal) : xpositive a → xfinite (xrsqrt a).
Proof.
  intros (r & -> & Hr). simpl. destruct (Rlt_dec 0 r); [by eexists|done].
Qed.

Lemma xadd_nonneg_positive (a b : xreal) : xnonneg a → xpositive b → xpositive (xadd a b).
Proof.
  intros (r & -> & Hr) (s & -> & Hs). exists (r + s)%R. split; [done|lra].
Qed.

Lemma xmul_finite (a b : xreal) : xfinite a → xfinite b → xfinite (xmul a b).
Proof. intros (r & ->) (s & ->). by eexists. Qed.

Lemma xadd_finite (a b : xreal) : xfinite a → xfinite b → xfinite (xadd a b).
Proof. intros (r & ->) (s & ->). by eexists. Qed.

Lemma xneg_finite (a : xreal) : xfinite a → xfinite (xneg a).
Proof. intros (r & ->). by eexists. Qed.

(** C2, amended: in exact arithmetic with the IEEE special values, when
    the variances are non-negative and [eps] is positive the reciprocal
    square root is taken of a positive number, also for a variance of 0, and
    the output is finite for finite parameters and a finite input. *)
Theorem forward_finite_exact (self : t xreal) (x : Tensor xreal) :
  num_features self (tC x) →
  Forall xfinite (weight self) →
  Forall xfinite (bias self) →
  Forall xfinite (running_mean self) →
  Forall xnonneg (running_var self) →
  xpositive (eps self) →
  (∀ b c h w, b < tB x → c < tC x → h < tH x → w < tW x → xfinite (tat x b c h w)) →
  ∃ y, forward self x = Ok y ∧ shape y = shape x ∧
    ∀ b c h w, b < tB x → c < tC x → h < tH x → w < tW x → xfinite (tat y b c h w).
Proof.
  intros Hn Hwf Hbf Hrmf Hrvf Heps Hx.
  destruct (forward_per_channel self x Hn) as (y & Hy & Hshape & Hval).
  destruct Hn as (Hw & Hb & Hrm & Hrv).
  exists y. split; [done|]. split; [done|].
  intros b c h w Hb' Hc Hh Hw'. rewrite Hval. simpl.
  rewrite !bidx_lt by done.
  assert (xfinite (xmul (nth c (weight self) (Fin 0))
            (xrsqrt (xadd (nth c (running_var self) (Fin 0)) (eps self))))) as Hscale.
  { apply xmul_finite.
    - apply Forall_nth; [done|lia].
    - apply xrsqrt_positive, xadd_nonneg_positive; [|done].
      apply Forall_nth; [done|lia]. }
  apply xadd_finite.
  - apply xmul_finite; [by apply Hx|done].
  - apply xadd_finite; [apply Forall_nth; [done|lia]|].
    apply xneg_finite, xmul_finite; [|done]. apply Forall_nth; [done|lia].
Qed.

Lemma forward_finite_exact_witness :
  let self := mk [Fin 1] [Fin 0] [Fin 0] [Fin 0] (Fin (1 / 100000)) in
  let x := mkTensor 1 1 1 1 (λ _ _ _ _, Fin 3) in
  ∃ y, forward self x = Ok y ∧ shape y = shape x ∧
    ∀ b c h w, b < tB x → c < tC x → h < tH x → w < tW x → xfinite (tat y b c h w).
Proof.
  intros self x. apply (forward_finite_exact self x).
  - repeat split; reflexivity.
  - repeat constructor; by eexists.
  - repeat constructor; by eexists.
  - repeat constructor; by eexists.
  - repeat constructor. exists 0%R. split; [reflexivity|lra].
  - exists (1 / 100000)%R. split; [reflexivity|lra].
  - intros. by eexists.
Defined.

(** Adding [eps] is what makes the difference: with [eps = 0] and a zero
    variance the same model yields a NaN. *)
Lemma forward_without_eps_nan :
  let self := mk [Fin 1] [Fin 0] [Fin 0] [Fin 0] (Fin 0) in
  let x := mkTensor 1 1 1 1 (λ _ _ _ _, Fin 3) in
  ∃ y, forward self x = Ok y ∧ tat y 0 0 0 0 = NaN.
Proof.
  intros self x.
  destruct (forward_per_channel self x) as (y & Hy & _ & Hval); [by repeat split|].
  exists y. split; [done|]. rewrite Hval. simpl.
  rewrite Rplus_0_l. destruct (Rlt_dec 0 0) as [H|_]; [lra|]. simpl.
  unfold xinf_times. destruct (Rlt_dec 0 3) as [_|H]; [|lra].
  destruct (Rlt_dec 0 1) as [_|H]; [|lra]. simpl.
  destruct (Rlt_dec 0 0) as [H|_]; [lra|]. done.
Qed.

(** *** Restoring a checkpoint *)

Lemma prefix_append (p s : string) : String.prefix p (p +:+ s) = true.
Proof.
  induction p as [|a p IH]; simpl; [by destruct s|].
  destruct (ascii_dec a a); [done|congruence].
Qed.

Lemma string_drop_append (p s : string) : string_drop (String.length p) (p +:+ s) = s.
Proof. induction p as [|a p IH]; simpl; [by destruct s|done]. Qed.

Lemma append_inj_r (p s1 s2 : string) : p +:+ s1 = p +:+ s2 → s1 = s2.
Proof. induction p as [|a p IH]; simpl; [done|]. intros [= H]. auto. Qed.

(** The key of the batch counter is the key of none of the buffers. *)
Lemma buffer_key_ne (prefix name : string) :
  name ∈ local_names → prefix +:+ name ≠ prefix +:+ "num_batches_tracked".
Proof.
  intros Hin Heq. apply append_inj_r in Heq. subst name.
  unfold local_names in Hin. rewrite !elem_of_cons, elem_of_nil in Hin.
  destruct Hin as [|[|[|[|[]]]]]; discriminate.
Qed.

(** The dictionary the method hands to the base class. *)
Lemma load_from_state_dict_unfold {A} (self : t A) (io : load_io A)
    (prefix : string) (strict : bool) :
  _load_from_state_dict self io prefix strict =
    Module_load_from_state_dict self
      (mk_io (delete (prefix +:+ "num_batches_tracked") (state_dict io))
         (missing_keys io) (unexpected_keys io) (error_msgs io))
      prefix strict.
Proof.
  unfold _load_from_state_dict. case_decide as Hkey; [done|].
  rewrite delete_id; [done|]. by apply eq_None_not_Some.
Qed.

Lemma Module_load_state_dict {A} (self : t A) (io : load_io A)
    (prefix : string) (strict : bool) :
  state_dict (Module_load_from_state_dict self io prefix strict).2 = state_dict io.
Proof.
  unfold Module_load_from_state_dict.
  repeat (destruct (load_local _ _ _ _ _ _ _) as [[? ?] ?]). done.
Qed.

Lemma Module_load_unexpected {A} (self : t A) (io : load_io A)
    (prefix : string) (strict : bool) :
  unexpected_keys (Module_load_from_state_dict self io prefix strict).2 =
    unexpected_keys io ++
      (if strict
       then filter (λ key, is_unexpected prefix key = true) (map_to_list (state_dict io)).*1
       else []).
Proof.
  unfold Module_load_from_state_dict.
  repeat (destruct (load_local _ _ _ _ _ _ _) as [[? ?] ?]). simpl.
  destruct strict; [done|by rewrite app_nil_r].
Qed.

(** Without the override the base class reports the counter in
    [unexpected_keys] of a strict load. *)
Lemma Module_load_reports_counter {A} (self : t A) (io : load_io A)
    (prefix : string) :
  is_Some (state_dict io !! (prefix +:+ "num_batches_tracked")) →
  prefix +:+ "num_batches_tracked"
    ∈ unexpected_keys (Module_load_from_state_dict self io prefix true).2.
Proof.
  intros [v Hv]. rewrite Module_load_unexpected. apply elem_of_app. right.
  apply list_elem_of_filter. split.
  - unfold is_unexpected. rewrite prefix_append, string_drop_append. done.
  - apply list_elem_of_fmap. exists (prefix +:+ "num_batches_tracked", v).
    split; [done|]. by apply elem_of_map_to_list.
Qed.

(** C7: a load from a dictionary that holds the counter key is the load
    from the dictionary without it: the same buffers and the same reports.
    The key is not added to [unexpected_keys], and the four buffer keys are
    read from the dictionary as they are. *)
Theorem load_discards_num_batches_tracked {A} (self : t A) (io : load_io A)
    (prefix : string) (strict : bool) (counter : ckpt_tensor A) :
  let key := prefix +:+ "num_batches_tracked" in
  let with_key := mk_io (<[key := counter]> (state_dict io))
                    (missing_keys io) (unexpected_keys io) (error_msgs io) in
  let without_key := mk_io (delete key (state_dict io))
                       (missing_keys io) (unexpected_keys io) (error_msgs io) in
  _load_from_state_dict self with_key prefix strict
    = _load_from_state_dict self without_key prefix strict
  ∧ _load_from_state_dict self without_key prefix strict
    = Module_load_from_state_dict self without_key prefix strict
  ∧ (∃ new, unexpected_keys (_load_from_state_dict self with_key prefix strict).2
              = unexpected_keys io ++ new ∧ key ∉ new)
  ∧ (∀ name, name ∈ local_names →
       delete key (state_dict with_key) !! (prefix +:+ name)
         = state_dict io !! (prefix +:+ name)).
Proof.
  intros key with_key without_key.
  assert (delete key (state_dict with_key) = delete key (state_dict io)) as Hdel.
  { unfold with_key; simpl. apply delete_insert_eq. }
  split; [|split; [|split]].
  - rewrite !load_from_state_dict_unfold. fold key. simpl.
    by rewrite delete_insert_eq, delete_delete_eq.
  - rewrite load_from_state_dict_unfold. fold key. simpl.
    by rewrite delete_delete_eq.
  - rewrite load_from_state_dict_unfold, Module_load_unexpected. fold key. simpl.
    eexists. split; [done|].
    destruct strict; [|by apply not_elem_of_nil].
    intros Hin. apply list_elem_of_filter in Hin as [_ Hin].
    apply list_elem_of_fmap in Hin as ([k v] & -> & Hin).
    apply elem_of_map_to_list in Hin. simpl in Hin.
    by rewrite lookup_delete_eq in Hin.
  - intros name Hname. rewrite Hdel.
    apply lookup_delete_ne. intros Heq. by apply (buffer_key_ne prefix name).
Qed.

(** A buffer found in the dictionary with the shape of the module's is
    the value loaded, with or without the counter beside it. *)
Lemma load_reads_weight {A} (self : t A) (io : load_io A)
    (prefix : string) (strict : bool) (input : ckpt_tensor A) :
  state_dict io !! (prefix +:+ "weight") = Some input →
  ck_shape input = [length (weight self)] →
  weight (_load_from_state_dict self io prefix strict).1 = ck_data input.
Proof.
  intros Hin Hshape. rewrite load_from_state_dict_unfold.
  unfold Module_load_from_state_dict; simpl.
  unfold load_local at 1.
  rewrite lookup_delete_ne, Hin, decide_True by
    (done || (intros Heq; symmetry in Heq; revert Heq; apply buffer_key_ne; set_solver)).
  repeat (destruct (load_local _ _ _ _ _ _ _) as [[? ?] ?]). done.
Qed.

(** C10: the dictionary the caller passed is left without the counter
    key, and with every other entry as it was. *)
Theorem load_deletes_key_in_place {A} (self : t A) (io : load_io A)
    (prefix : string) (strict : bool) :
  let key := prefix +:+ "num_batches_tracked" in
  let after := state_dict (_load_from_state_dict self io prefix strict).2 in
  after = delete key (state_dict io)
  ∧ after !! key = None
  ∧ (∀ k, k ≠ key → after !! k = state_dict io !! k).
Proof.
  intros key after.
  assert (after = delete key (state_dict io)) as ->.
  { unfold after. by rewrite load_from_state_dict_unfold, Module_load_state_dict. }
  split; [done|]. split; [apply lookup_delete_eq|].
  intros k Hk. by apply lookup_delete_ne.
Qed.

End FrozenBatchNorm2dFacts.

(** ** The order of level keys *)

Lemma ascii_compare_refl (c : ascii) : Ascii.compare c c = Eq.
Proof. unfold Ascii.compare. apply N.compare_refl. Qed.

Lemma ascii_compare_lt_trans (a b c : ascii) :
  Ascii.compare a b = Lt → Ascii.compare b c = Lt → Ascii.compare a c = Lt.
Proof.
  unfold Ascii.compare. rewrite !N.compare_lt_iff. apply N.lt_trans.
Qed.

Lemma string_leb_trans (s1 s2 s3 : string) :
  String.leb s1 s2 = true → String.leb s2 s3 = true → String.leb s1 s3 = true.
Proof.
  unfold String.leb. revert s2 s3.
  induction s1 as [|c1 s1 IH]; intros [|c2 s2] [|c3 s3]; simpl; try done.
  destruct (Ascii.compare c1 c2) eqn:H12; [| |done].
  - apply Ascii.compare_eq_iff in H12 as ->.
    destruct (Ascii.compare c2 c3); [apply IH|done|done].
  - destruct (Ascii.compare c2 c3) eqn:H23; [| |done].
    + apply Ascii.compare_eq_iff in H23 as <-. by rewrite H12.
    + by rewrite (ascii_compare_lt_trans _ _ _ H12 H23).
Qed.

#[global] Instance item_le_trans {V} : Transitive (@item_le V).
Proof. intros a b c. unfold item_le. apply string_leb_trans. Qed.

#[global] Instance item_le_total {V} : Total (@item_le V).
Proof. intros a b. unfold item_le. apply String.leb_total. Qed.

(** [sorted] rearranges the items of the dictionary in ascending order of
    their keys. *)
Lemma sorted_items_spec {V} (xs : dict V) :
  sorted_items xs ≡ₚ xs ∧ StronglySorted item_le (sorted_items xs).
Proof.
  split; [apply merge_sort_Permutation|].
  apply (StronglySorted_merge_sort _); apply _.
Qed.

(** ** Dictionaries *)

Lemma dict_set_Forall {V} (P : string * V → Prop) (k : string) (v : V) (d : dict V) :
  Forall P d → P (k, v) → Forall P (dict_set k v d).
Proof.
  intros Hd Hv. induction Hd as [|[k' v'] d Hkv Hd IH]; simpl.
  - by constructor.
  - destruct (String.eqb k k'); by constructor.
Qed.

Lemma dict_set_keys_NoDup {V} (k : string) (v : V) (d : dict V) :
  NoDup (dict_keys d) → NoDup (dict_keys (dict_set k v d)).
Proof.
  unfold dict_keys. induction d as [|[k' v'] d IH]; simpl; intros Hd.
  - apply NoDup_singleton.
  - apply NoDup_cons in Hd as [Hk' Hd].
    destruct (String.eqb k k') eqn:Hk; simpl.
    + apply String.eqb_eq in Hk as ->. by apply NoDup_cons.
    + apply NoDup_cons. split; [|by apply IH].
      intros Hin. apply Hk'. clear IH Hd Hk'.
      induction d as [|[k2 v2] d IH]; simpl in *.
      * apply list_elem_of_singleton in Hin. subst k'. by rewrite String.eqb_refl in Hk.
      * destruct (String.eqb k k2) eqn:Hk2; simpl in *.
        -- apply String.eqb_eq in Hk2 as ->.
           apply elem_of_cons in Hin as [->|Hin]; [by rewrite String.eqb_refl in Hk|].
           by apply elem_of_cons; right.
        -- apply elem_of_cons in Hin as [->|Hin]; [by apply elem_of_cons; left|].
           apply elem_of_cons; right. by apply IH.
Qed.

(** ** Resizing the mask *)

Lemma float_to_bool_to_float (b : bool) : float_to_bool (bool_to_float b) = b.
Proof. by destruct b. Qed.

Section extractor_facts.
Context {elt : Type}.
Variable cast : dtype → elt → elt.
Variable torchvision_models : string → list bool → bool → result (@ResNet elt).
Variable is_main_process : bool.

#[local] Abbreviation FloatTensor := (@FloatTensor elt).
#[local] Abbreviation NestedTensor := (@NestedTensor elt).
#[local] Abbreviation ResNet := (@ResNet elt).
#[local] Abbreviation BackboneBase := (@BackboneBase elt).
#[local] Abbreviation Joiner := (@Joiner elt).

(** The mask [interpolate_mask] returns for a mask [m] and a feature map
    [x]. *)
Definition resized (m : Mask) (x : FloatTensor) : Mask :=
  mkMask (mB m) (tH (ft_val x)) (tW (ft_val x)) (λ b i j,
    float_to_bool (bool_to_float
      (mat m b (nearest_idx i (mH m) (tH (ft_val x)))
               (nearest_idx j (mW m) (tW (ft_val x)))))).

Definition mask_nonempty (m : Mask) : Prop := 0 < mB m ∧ 0 < mH m ∧ 0 < mW m.

Definition spatial (x : FloatTensor) : Prop := 0 < tH (ft_val x) ∧ 0 < tW (ft_val x).

Lemma resized_values (m : Mask) (x : FloatTensor) (b i j : nat) :
  mat (resized m x) b i j =
    mat m b (nearest_idx i (mH m) (tH (ft_val x))) (nearest_idx j (mW m) (tW (ft_val x))).
Proof. simpl. apply float_to_bool_to_float. Qed.

Lemma interpolate_mask_Some (m : Mask) (x : FloatTensor) :
  mask_nonempty m → spatial x → interpolate_mask (Some m) x = Ok (resized m x).
Proof.
  intros (HB & HH & HW) (Hh & Hw). unfold interpolate_mask, interpolate; simpl.
  rewrite !decide_False by lia. simpl. done.
Qed.

Lemma interpolate_mask_None (x : FloatTensor) :
  interpolate_mask None x = Raise (TypeError "'NoneType' object is not subscriptable").
Proof. done. Qed.

(** Whatever mask comes back has the height and width of the feature map
    it was resized for. *)
Lemma interpolate_mask_shape (m : option Mask) (x : FloatTensor) (mask : Mask) :
  interpolate_mask m x = Ok mask → (mH mask, mW mask) = shape_last2 (ft_val x).
Proof.
  unfold interpolate_mask, interpolate. destruct m as [m|]; simpl; [|done].
  repeat case_decide; simpl; try done.
  unfold getitem_0; simpl. intros [= <-]. done.
Qed.

(** ** The levels of the extractor *)

(** A level carries a mask of the spatial shape of its tensor. *)
Definition level_aligned (level : NestedTensor) : Prop :=
  ∃ m, mask level = Some m ∧ (mH m, mW m) = shape_last2 (ft_val (tensors level)).

Lemma forward_loop_aligned (m : option Mask) (xs : dict FloatTensor)
    (acc out : dict NestedTensor) :
  Forall (λ kv, level_aligned kv.2) acc →
  forward_loop m xs acc = Ok out →
  Forall (λ kv, level_aligned kv.2) out.
Proof.
  revert acc. induction xs as [|[name x] xs IH]; simpl; intros acc Hacc.
  - by intros [= <-].
  - destruct (py_assert _ _); simpl; [|done].
    destruct (interpolate_mask m x) as [mask|] eqn:Hmask; simpl; [|done].
    apply IH. apply dict_set_Forall; [done|]. simpl.
    exists mask. split; [done|]. by eapply interpolate_mask_shape.
Qed.

Lemma forward_loop_None (xs : dict FloatTensor) (acc : dict NestedTensor) :
  xs ≠ [] → forward_loop None xs acc = Raise (AssertionError "").
Proof. by destruct xs as [|[name x] xs]. Qed.

(** The activations the trunk is tapped at. *)
Definition stem (net : ResNet) (t : FloatTensor) : FloatTensor :=
  layer1 net (maxpool net (relu net (bn1 net (conv1 net t)))).
Definition tap_layer2 (net : ResNet) (t : FloatTensor) : FloatTensor :=
  layer2 net (stem net t).
Definition tap_layer3 (net : ResNet) (t : FloatTensor) : FloatTensor :=
  layer3 net (tap_layer2 net t).
Definition tap_layer4 (net : ResNet) (t : FloatTensor) : FloatTensor :=
  layer4 net (tap_layer3 net t).

(** An input the extractor is defined on: it carries a non-empty mask, and
    the trunk maps its images to non-empty feature maps. *)
Definition valid_input (net : ResNet) (x : NestedTensor) : Prop :=
  ∃ m, mask x = Some m ∧ mask_nonempty m
       ∧ spatial (tap_layer2 net (tensors x))
       ∧ spatial (tap_layer3 net (tensors x))
       ∧ spatial (tap_layer4 net (tensors x)).

(** The level made of a tapped activation and the mask of the input. *)
Definition level_of (x : NestedTensor) (feature : FloatTensor) : NestedTensor :=
  mkNestedTensor feature ((λ m, resized m feature) <$> mask x).

(** The levels of a multi-level and of a single-level extraction. *)
Definition levels_of (net : ResNet) (multi : bool) (x : NestedTensor) : dict NestedTensor :=
  if multi
  then [("0", level_of x (tap_layer2 net (tensors x)));
        ("1", level_of x (tap_layer3 net (tensors x)));
        ("2", level_of x (tap_layer4 net (tensors x)))]
  else [("0", level_of x (tap_layer4 net (tensors x)))].

(** What the body of the extractor returns: the tapped activations under
    the keys of [return_layers]. *)
Definition body_taps (self : BackboneBase) (net : ResNet) (multi : bool) : Prop :=
  ∀ t, IntermediateLayerGetter_forward (body self) t =
    if multi
    then [("0", tap_layer2 net t); ("1", tap_layer3 net t); ("2", tap_layer4 net t)]
    else [("0", tap_layer4 net t)].

Lemma BackboneBase_init_Ok (net : ResNet) (train_backbone multi : bool) :
  ∃ self, BackboneBase_init net train_backbone multi = Ok self
    ∧ backbone self = net
    ∧ strides self = (if multi then [8; 16; 32] else [32])%Z
    ∧ num_channels self = (if multi then [512; 1024; 2048] else [2048])%Z
    ∧ body_taps self net multi.
Proof. destruct multi; (eexists; split; [reflexivity|done]). Qed.

Lemma BackboneBase_forward_valid (self : BackboneBase) (net : ResNet)
    (multi : bool) (x : NestedTensor) :
  body_taps self net multi →
  valid_input net x →
  BackboneBase_forward self x = Ok (levels_of net multi x).
Proof.
  intros Hbody (m & Hm & Hne & H2 & H3 & H4).
  unfold BackboneBase_forward, levels_of, level_of. rewrite Hbody, Hm.
  destruct multi; simpl; rewrite ?interpolate_mask_Some by done; done.
Qed.

Lemma support_encoding_net_valid (self : BackboneBase) (net : ResNet)
    (x : NestedTensor) (multi : bool) :
  backbone self = net →
  valid_input net x →
  support_encoding_net self x multi = Ok (levels_of net multi x).
Proof.
  intros Hnet (m & Hm & Hne & H2 & H3 & H4).
  unfold support_encoding_net, levels_of, level_of. rewrite Hnet, Hm.
  fold (stem net (tensors x)). fold (tap_layer2 net (tensors x)).
  fold (tap_layer3 net (tensors x)). fold (tap_layer4 net (tensors x)).
  destruct multi; simpl; rewrite ?interpolate_mask_Some by done; done.
Qed.

(** ** Construction *)

Lemma Backbone_init_Ok_inv (name : string) (train_backbone multi dilation : bool)
    (self : BackboneBase) :
  Backbone_init torchvision_models is_main_process name train_backbone multi dilation
    = Ok self →
  ∃ net, torchvision_models name [false; false; dilation] is_main_process = Ok net
    ∧ (name ∉ ["resnet18"; "resnet34"])
    ∧ backbone self = net
    ∧ strides self = (if multi then [8; 16; if dilation then 16 else 32]
                      else [if dilation then 16 else 32])%Z
    ∧ num_channels self = (if multi then [512; 1024; 2048] else [2048])%Z
    ∧ body_taps self net multi.
Proof.
  unfold Backbone_init.
  destruct (torchvision_models _ _ _) as [net|] eqn:Htv; simpl; [|done].
  destruct (bool_decide (name ∈ _)) eqn:Hname; simpl; [done|].
  apply bool_decide_eq_false in Hname.
  destruct (BackboneBase_init_Ok net train_backbone multi)
    as (base & -> & Hnet & Hstrides & Hchannels & Hbody). simpl.
  destruct dilation; simpl.
  - rewrite Hstrides. destruct multi; simpl; intros [= <-]; simpl; eauto 10.
  - intros [= <-]. rewrite Hstrides. eauto 10.
Qed.

(** C4, amended: a constructed multi-level extractor has strides
    [8, 16, 32] and channel counts [512, 1024, 2048] and produces three
    levels; a constructed single-level extractor has stride [32], channel
    count [2048] and produces one level; in both modes the last stride is
    halved, to 16, when dilation is enabled. *)
Theorem backbone_levels_metadata (name : string) (train_backbone multi dilation : bool)
    (self : BackboneBase) (x : NestedTensor) :
  Backbone_init torchvision_models is_main_process name train_backbone multi dilation
    = Ok self →
  valid_input (backbone self) x →
  strides self = (if multi then [8; 16; if dilation then 16 else 32]
                  else [if dilation then 16 else 32])%Z
  ∧ num_channels self = (if multi then [512; 1024; 2048] else [2048])%Z
  ∧ ∃ out, BackboneBase_forward self x = Ok out
      ∧ length out = (if multi then 3 else 1)
      ∧ dict_keys out = (if multi then ["0"; "1"; "2"] else ["0"]).
Proof.
  intros Hinit Hx.
  destruct (Backbone_init_Ok_inv _ _ _ _ _ Hinit)
    as (net & _ & _ & Hnet & Hstrides & Hchannels & Hbody).
  split; [done|]. split; [done|].
  rewrite Hnet in Hx. rewrite (BackboneBase_forward_valid self net multi x Hbody Hx).
  eexists. split; [done|]. by destruct multi.
Qed.

(** C9: [resnet18] and [resnet34] are never accepted, in either mode:
    construction raises, and when torchvision built the trunk what is raised
    is the assertion on the name. *)
Theorem small_resnets_rejected (name : string) (train_backbone multi dilation : bool) :
  name = "resnet18" ∨ name = "resnet34" →
  raises (Backbone_init torchvision_models is_main_process name train_backbone multi dilation)
  ∧ (is_Ok (torchvision_models name [false; false; dilation] is_main_process) →
     Backbone_init torchvision_models is_main_process name train_backbone multi dilation
       = Raise (AssertionError "number of channels are hard coded, cannot use res18 & res34.")).
Proof.
  intros Hname. unfold Backbone_init.
  destruct (torchvision_models _ _ _) as [net|e]; simpl.
  - rewrite bool_decide_eq_true_2; simpl.
    + split; [by eexists|done].
    + destruct Hname as [-> | ->]; set_solver.
  - split; [by eexists|]. by intros [? ?].
Qed.

(** ** Masks of the levels *)

(** C5: every level either extraction path produces carries a mask whose
    height and width are those of its tensor. *)
Theorem levels_mask_matches_tensor (self : BackboneBase) (x : NestedTensor)
    (multi : bool) (out : dict NestedTensor) :
  BackboneBase_forward self x = Ok out ∨ support_encoding_net self x multi = Ok out →
  Forall (λ kv, level_aligned kv.2) out.
Proof.
  intros [Hout|Hout].
  - unfold BackboneBase_forward in Hout. by eapply forward_loop_aligned.
  - revert Hout. unfold support_encoding_net.
    set (x2 := layer2 (backbone self) _). set (x3 := layer3 (backbone self) x2).
    set (x4 := layer4 (backbone self) x3).
    assert (∀ m ft mk, interpolate_mask m ft = Ok mk →
              level_aligned (mkNestedTensor ft (Some mk))) as Hal.
    { intros m ft mk Hmk. exists mk. split; [done|]. by eapply interpolate_mask_shape. }
    destruct multi; simpl.
    + destruct (interpolate_mask (mask x) x2) eqn:H2; simpl; [|done].
      destruct (interpolate_mask (mask x) x3) eqn:H3; simpl; [|done].
      destruct (interpolate_mask (mask x) x4) eqn:H4; simpl; [|done].
      intros [= <-]. repeat constructor; simpl; eauto.
    + destruct (interpolate_mask (mask x) x4) eqn:H4; simpl; [|done].
      intros [= <-]. repeat constructor; simpl; eauto.
Qed.

(** C6: without a mask both extraction operations of a constructed
    extractor raise, the primary one on its assertion and the support one
    on subscripting [None], and so do the two entry points of the composer. *)
Theorem missing_mask_raises (name : string) (train_backbone multi dilation flag : bool)
    (net : ResNet) (self : BackboneBase) (pe : NestedTensor → FloatTensor)
    (x : NestedTensor) :
  BackboneBase_init net train_backbone multi = Ok self
  ∨ Backbone_init torchvision_models is_main_process name train_backbone multi dilation
      = Ok self →
  mask x = None →
  BackboneBase_forward self x = Raise (AssertionError "")
  ∧ support_encoding_net self x flag
      = Raise (TypeError "'NoneType' object is not subscriptable")
  ∧ raises (Joiner_forward cast (Joiner_init self pe) x)
  ∧ raises (Joiner_forward_supp_branch cast (Joiner_init self pe) x flag).
Proof.
  intros Hinit Hmask.
  assert (∃ net', body_taps self net' multi) as [net' Hbody].
  { destruct Hinit as [Hinit|Hinit].
    - destruct (BackboneBase_init_Ok net train_backbone multi)
        as (self' & Hinit' & _ & _ & _ & Hbody).
      rewrite Hinit in Hinit'. injection Hinit' as <-. by exists net.
    - destruct (Backbone_init_Ok_inv _ _ _ _ _ Hinit)
        as (net' & _ & _ & _ & _ & _ & Hbody). by exists net'. }
  assert (BackboneBase_forward self x = Raise (AssertionError "")) as Hfwd.
  { unfold BackboneBase_forward. rewrite Hbody, Hmask.
    apply forward_loop_None. by destruct multi. }
  assert (support_encoding_net self x flag
            = Raise (TypeError "'NoneType' object is not subscriptable")) as Hsupp.
  { unfold support_encoding_net. rewrite Hmask. by destruct flag. }
  split; [done|]. split; [done|].
  unfold Joiner_forward, Joiner_forward_supp_branch; simpl.
  rewrite Hfwd, Hsupp. split; by eexists.
Qed.

(** The keys of the levels are distinct, so that sorting the items never
    compares two levels. *)
Lemma forward_loop_keys_NoDup (m : option Mask) (xs : dict FloatTensor)
    (acc out : dict NestedTensor) :
  NoDup (dict_keys acc) → forward_loop m xs acc = Ok out → NoDup (dict_keys out).
Proof.
  revert acc. induction xs as [|[name x] xs IH]; simpl; intros acc Hacc.
  - by intros [= <-].
  - destruct (py_assert _ _); simpl; [|done].
    destruct (interpolate_mask m x) as [mask|]; simpl; [|done].
    apply IH. by apply dict_set_keys_NoDup.
Qed.

Lemma support_encoding_net_keys_NoDup (self : BackboneBase) (x : NestedTensor)
    (flag : bool) (out : dict NestedTensor) :
  support_encoding_net self x flag = Ok out → NoDup (dict_keys out).
Proof.
  unfold support_encoding_net.
  set (x2 := layer2 (backbone self) _). set (x3 := layer3 (backbone self) x2).
  set (x4 := layer4 (backbone self) x3).
  destruct flag; simpl.
  - destruct (interpolate_mask (mask x) x2); simpl; [|done].
    destruct (interpolate_mask (mask x) x3); simpl; [|done].
    destruct (interpolate_mask (mask x) x4); simpl; [|done].
    intros [= <-]. change (NoDup ["0"; "1"; "2"]).
    by refine (bool_decide_unpack _ _).
  - destruct (interpolate_mask (mask x) x4); simpl; [|done].
    intros [= <-]. apply NoDup_singleton.
Qed.

(** ** The level composer *)

(** The two entry points of the composer, and the extraction each runs. *)
Inductive entry : Type :=
  | Primary
  | SupportBranch (return_interm_layers : bool).

Definition extract (self : BackboneBase) (e : entry) (x : NestedTensor)
    : result (dict NestedTensor) :=
  match e with
  | Primary => BackboneBase_forward self x
  | SupportBranch flag => support_encoding_net self x flag
  end.

Definition compose (self : Joiner) (e : entry) (x : NestedTensor)
    : result (list NestedTensor * list FloatTensor) :=
  match e with
  | Primary => Joiner_forward cast self x
  | SupportBranch flag => Joiner_forward_supp_branch cast self x flag
  end.

Lemma extract_keys_NoDup (self : BackboneBase) (e : entry) (x : NestedTensor)
    (xs : dict NestedTensor) :
  extract self e x = Ok xs → NoDup (dict_keys xs).
Proof.
  destruct e as [|flag]; simpl.
  - apply forward_loop_keys_NoDup, NoDup_nil_2.
  - apply support_encoding_net_keys_NoDup.
Qed.

(** [out] holds the levels of [xs] in ascending order of their keys, and
    [pos] the encoding of each, converted to the dtype of its tensor. *)
Definition composed (pe : NestedTensor → FloatTensor) (xs : dict NestedTensor)
    (out : list NestedTensor) (pos : list FloatTensor) : Prop :=
  length out = length xs ∧ length pos = length xs
  ∧ (∃ levels, levels ≡ₚ xs ∧ StronglySorted item_le levels ∧ out = levels.*2)
  ∧ ∀ i feature, out !! i = Some feature →
      pos !! i = Some (tensor_to cast (pe feature) (ft_dtype (tensors feature)))
      ∧ ft_dtype (tensor_to cast (pe feature) (ft_dtype (tensors feature)))
        = ft_dtype (tensors feature).

Lemma tensor_to_dtype (t : FloatTensor) (d : dtype) : ft_dtype (tensor_to cast t d) = d.
Proof. unfold tensor_to. by case_decide. Qed.

Lemma sorted_items_composed (pe : NestedTensor → FloatTensor) (xs : dict NestedTensor) :
  composed pe xs (sorted_items xs).*2
    (map (λ x, tensor_to cast (pe x) (ft_dtype (tensors x))) (sorted_items xs).*2).
Proof.
  destruct (sorted_items_spec xs) as [Hperm Hsorted].
  assert (length (sorted_items xs).*2 = length xs) as Hlen.
  { by rewrite length_fmap, Hperm. }
  split; [done|]. split; [by rewrite length_map|].
  split; [by exists (sorted_items xs)|].
  intros i feature Hi. split; [|apply tensor_to_dtype].
  change (map ?f ?l) with (f <$> l). by rewrite list_lookup_fmap, Hi.
Qed.

(** C3: on an input the extractor accepts, either entry point returns two
    sequences with one entry per level: the levels in ascending order of
    their keys, and at each index the positional encoding of the level at
    that index, converted to the dtype of the level's tensor. *)
Theorem joiner_sorted_and_paired (self : Joiner) (e : entry) (x : NestedTensor)
    (xs : dict NestedTensor) :
  extract (joiner_0 self) e x = Ok xs →
  ∃ out pos, compose self e x = Ok (out, pos) ∧ composed (joiner_1 self) xs out pos.
Proof.
  intros Hxs. destruct e as [|flag]; simpl in *.
  - unfold Joiner_forward. rewrite Hxs. simpl.
    eexists _, _. split; [done|]. apply sorted_items_composed.
  - unfold Joiner_forward_supp_branch. rewrite Hxs. simpl.
    eexists _, _. split; [done|]. apply sorted_items_composed.
Qed.

(** The levels of a constructed extractor already come in the order of
    their keys. *)
Lemma sorted_levels_of (net : ResNet) (multi : bool) (x : NestedTensor) :
  sorted_items (levels_of net multi x) = levels_of net multi x.
Proof. by destruct multi. Qed.

(** C8: the support branch returns as many levels as the flag of the call
    asks for, three or one, whatever mode the extractor was constructed in,
    and the primary entry as many as the mode of construction: a
    support-branch call with the flag off returns one level where the
    primary call of a multi-level extractor returns three. *)
Theorem support_levels_follow_call_flag (name : string)
    (train_backbone multi dilation flag : bool) (self : BackboneBase)
    (pe : NestedTensor → FloatTensor) (x : NestedTensor) :
  Backbone_init torchvision_models is_main_process name train_backbone multi dilation
    = Ok self →
  valid_input (backbone self) x →
  (∃ out pos, Joiner_forward_supp_branch cast (Joiner_init self pe) x flag = Ok (out, pos)
     ∧ out = (levels_of (backbone self) flag x).*2
     ∧ length out = (if flag then 3 else 1) ∧ length pos = length out)
  ∧ (∃ out pos, Joiner_forward cast (Joiner_init self pe) x = Ok (out, pos)
     ∧ out = (levels_of (backbone self) multi x).*2
     ∧ length out = (if multi then 3 else 1) ∧ length pos = length out).
Proof.
  intros Hinit Hx.
  destruct (Backbone_init_Ok_inv _ _ _ _ _ Hinit)
    as (net & _ & _ & Hnet & _ & _ & Hbody).
  rewrite Hnet in Hx. split.
  - unfold Joiner_forward_supp_branch; simpl.
    rewrite (support_encoding_net_valid self net x flag Hnet Hx). simpl.
    rewrite sorted_levels_of, Hnet. eexists _, _. split; [done|].
    split; [done|]. rewrite length_map. by destruct flag.
  - unfold Joiner_forward; simpl.
    rewrite (BackboneBase_forward_valid self net multi x Hbody Hx). simpl.
    rewrite sorted_levels_of, Hnet. eexists _, _. split; [done|].
    split; [done|]. rewrite length_map. by destruct multi.
Qed.

End extractor_facts.

(** ** A small trunk and a padded batch *)

Module Toy.

(** A layer of stride 2: every second row and column. *)
Definition stride2 (t : @FloatTensor nat) : @FloatTensor nat :=
  mkFT (ft_dtype t)
    (mkTensor (tB (ft_val t)) (tC (ft_val t))
       ((tH (ft_val t) + 1) / 2) ((tW (ft_val t) + 1) / 2)
       (λ b c i j, tat (ft_val t) b c (2 * i) (2 * j))).

(** Strides 2, 4, 4, 8, 16 and 32 at [conv1], [maxpool], [layer1] to
    [layer4]; with dilation [layer4] keeps the resolution of [layer3]. *)
Definition resnet (dilation : bool) : @ResNet nat :=
  let same : @FloatTensor nat → @FloatTensor nat := λ t, t in
  mkResNet stride2 same same stride2 same stride2 stride2
    (if dilation then same else stride2) same same.

Definition torchvision_models (name : string) (replace_stride_with_dilation : list bool)
    (pretrained : bool) : result (@ResNet nat) :=
  if bool_decide (name ∈ ["resnet18"; "resnet34"])
  then if existsb (λ b, b) replace_stride_with_dilation
       then Raise (LibraryError "Dilation > 1 not supported in BasicBlock")
       else Ok (resnet false)
  else if bool_decide (name ∈ ["resnet50"; "resnet101"; "resnet152"])
  then Ok (resnet (nth 2 replace_stride_with_dilation false))
  else Raise (LibraryError "module 'torchvision.models' has no attribute").

Definition cast (d : dtype) (v : nat) : nat := v.

(** A positional encoding computed in [float64]. *)
Definition position_embedding (x : @NestedTensor nat) : @FloatTensor nat :=
  mkFT float64 (ft_val (tensors x)).

(** One [float32] image of 64 by 48 pixels, its columns from 40 on
    padding. *)
Definition image : @FloatTensor nat :=
  mkFT float32 (mkTensor 1 3 64 48 (λ b c i j, i + j)).
Definition padding : Mask := mkMask 1 64 48 (λ b i j, bool_decide (40 ≤ j)).
Definition batch : @NestedTensor nat := mkNestedTensor image (Some padding).
Definition batch_without_mask : @NestedTensor nat := mkNestedTensor image None.

Definition backbone (multi dilation : bool) : @BackboneBase nat :=
  mkBackboneBase (resnet dilation)
    (if multi then [8; 16; if dilation then 16 else 32]
     else [if dilation then 16 else 32])%Z
    (if multi then [512; 1024; 2048] else [2048])%Z
    (let return_layers :=
       if multi then [("layer2", "0"); ("layer3", "1"); ("layer4", "2")]
       else [("layer4", "0")] in
     mkILG (ilg_keep (named_children (resnet dilation)) return_layers) return_layers).

Lemma Backbone_init_resnet50 (multi dilation : bool) :
  Backbone_init torchvision_models true "resnet50" false multi dilation
    = Ok (backbone multi dilation).
Proof. by destruct multi, dilation. Defined.

Lemma batch_valid (dilation : bool) : valid_input (resnet dilation) batch.
Proof.
  exists padding. split; [reflexivity|].
  destruct dilation; vm_compute; repeat split; lia.
Defined.

(** The levels have the resolutions of strides 8, 16 and 32, and a pixel
    of a resized mask is padding exactly when its nearest source pixel is. *)
Example batch_levels :
  ∃ l0 l1 l2 m0 m1 m2,
    BackboneBase_forward (backbone true false) batch = Ok [("0", l0); ("1", l1); ("2", l2)]
    ∧ shape (ft_val (tensors l0)) = [1; 3; 8; 6] ∧ mask l0 = Some m0
    ∧ shape (ft_val (tensors l1)) = [1; 3; 4; 3] ∧ mask l1 = Some m1
    ∧ shape (ft_val (tensors l2)) = [1; 3; 2; 2] ∧ mask l2 = Some m2
    ∧ (mB m0, mH m0, mW m0) = (1, 8, 6)
    ∧ (mB m1, mH m1, mW m1) = (1, 4, 3)
    ∧ (mB m2, mH m2, mW m2) = (1, 2, 2)
    ∧ map (mat m0 0 0) [0; 1; 2; 3; 4; 5] = [false; false; false; false; false; true]
    ∧ map (mat m2 0 1) [0; 1] = [false; false].
Proof. repeat eexists. Qed.

Example sorted_items_by_key :
  sorted_items [("2", 20); ("0", 0); ("1", 10)] = [("0", 0); ("1", 10); ("2", 20)].
Proof. reflexivity. Qed.

Example halve_last_stride_multi :
  halve_last_stride [8; 16; 32]%Z = Ok [8; 16; 16]%Z.
Proof. reflexivity. Qed.

Example nearest_idx_stride8 : map (λ i, nearest_idx i 48 6) [0; 1; 5] = [0; 8; 40].
Proof. reflexivity. Qed.

End Toy.

(** ** The statements on the small trunk *)

Lemma backbone_levels_metadata_witness :
  strides (Toy.backbone true true) = [8; 16; 16]%Z
  ∧ num_channels (Toy.backbone true true) = [512; 1024; 2048]%Z
  ∧ ∃ out, BackboneBase_forward (Toy.backbone true true) Toy.batch = Ok out
      ∧ length out = 3 ∧ dict_keys out = ["0"; "1"; "2"].
Proof.
  apply (backbone_levels_metadata Toy.torchvision_models true "resnet50" false true true
           (Toy.backbone true true) Toy.batch).
  - reflexivity.
  - exists Toy.padding. split; [reflexivity|]. vm_compute. repeat split; lia.
Defined.

(** C4, as stated, fails: a single-level extractor constructed with
    dilation has stride 16, not 32. *)
Lemma single_level_dilated_stride :
  ∃ self, Backbone_init Toy.torchvision_models true "resnet50" false false true = Ok self
    ∧ length (strides self) = 1
    ∧ num_channels self = [2048]%Z
    ∧ strides self = [16]%Z
    ∧ strides self ≠ [32]%Z.
Proof. eexists. split; [reflexivity|]. by repeat split. Qed.

Lemma small_resnets_rejected_witness :
  raises (Backbone_init Toy.torchvision_models true "resnet18" false true false)
  ∧ (is_Ok (Toy.torchvision_models "resnet18" [false; false; false] true) →
     Backbone_init Toy.torchvision_models true "resnet18" false true false
       = Raise (AssertionError "number of channels are hard coded, cannot use res18 & res34.")).
Proof.
  apply (small_resnets_rejected Toy.torchvision_models true "resnet18" false true false).
  left. reflexivity.
Defined.

Lemma levels_mask_matches_tensor_witness :
  Forall (λ kv : string * @NestedTensor nat, level_aligned kv.2)
    (levels_of (Toy.resnet false) true Toy.batch).
Proof.
  apply (levels_mask_matches_tensor (Toy.backbone true false) Toy.batch true).
  left. reflexivity.
Defined.

Lemma missing_mask_raises_witness :
  BackboneBase_forward (Toy.backbone true false) Toy.batch_without_mask
    = Raise (AssertionError "")
  ∧ support_encoding_net (Toy.backbone true false) Toy.batch_without_mask false
      = Raise (TypeError "'NoneType' object is not subscriptable")
  ∧ raises (Joiner_forward Toy.cast
              (Joiner_init (Toy.backbone true false) Toy.position_embedding)
              Toy.batch_without_mask)
  ∧ raises (Joiner_forward_supp_branch Toy.cast
              (Joiner_init (Toy.backbone true false) Toy.position_embedding)
              Toy.batch_without_mask false).
Proof.
  apply (missing_mask_raises Toy.cast Toy.torchvision_models true
           "resnet50" false true false false (Toy.resnet false)).
  - right. reflexivity.
  - reflexivity.
Defined.

Lemma joiner_sorted_and_paired_witness :
  ∃ out pos,
    compose Toy.cast (Joiner_init (Toy.backbone true false) Toy.position_embedding)
      Primary Toy.batch = Ok (out, pos)
    ∧ composed Toy.cast Toy.position_embedding
        (levels_of (Toy.resnet false) true Toy.batch) out pos.
Proof.
  apply (joiner_sorted_and_paired Toy.cast
           (Joiner_init (Toy.backbone true false) Toy.position_embedding)
           Primary Toy.batch).
  reflexivity.
Defined.

Lemma support_levels_follow_call_flag_witness :
  let joiner := Joiner_init (Toy.backbone true false) Toy.position_embedding in
  (∃ out pos, Joiner_forward_supp_branch Toy.cast joiner Toy.batch false = Ok (out, pos)
     ∧ out = (levels_of (Toy.resnet false) false Toy.batch).*2
     ∧ length out = 1 ∧ length pos = length out)
  ∧ (∃ out pos, Joiner_forward Toy.cast joiner Toy.batch = Ok (out, pos)
     ∧ out = (levels_of (Toy.resnet false) true Toy.batch).*2
     ∧ length out = 3 ∧ length pos = length out).
Proof.
  apply (support_levels_follow_call_flag Toy.cast Toy.torchvision_models true
           "resnet50" false true false false (Toy.backbone true false)
           Toy.position_embedding Toy.batch).
  - reflexivity.
  - exists Toy.padding. split; [reflexivity|]. vm_compute. repeat split; lia.
Defined.

(** * Further properties *)

(** ** The frozen normalisation operator on any input *)

Module FrozenBatchNorm2dMore.
Import FrozenBatchNorm2d FrozenBatchNorm2dFacts.

Lemma broadcast_dim_channels (C n : nat) :
  n = C ∨ n = 1 ∨ C = 1 →
  broadcast_dim C n = Ok (if decide (C = 1) then n else C).
Proof.
  intros Hcompat. unfold broadcast_dim.
  repeat case_decide; try done; try congruence. destruct Hcompat as [|[|]]; congruence.
Qed.

(** The scale and the shift of a module for [n] channels are tensors of
    shape [(1, n, 1, 1)]. *)
Lemma forward_unfold {A} `{!Dtype A} (self : t A) (x : Tensor A) (n : nat) :
  num_features self n →
  ∃ scale shift,
    shape scale = [1; n; 1; 1] ∧ shape shift = [1; n; 1; 1]
    ∧ forward self x = (x_scale ← broadcast2 tmul x scale; broadcast2 tadd x_scale shift).
Proof.
  intros (Hw & Hb & Hrm & Hrv). unfold forward.
  rewrite (broadcast2_per_channel tmul (reshape_1C11 (weight self))); simpl; try congruence.
  rewrite (broadcast2_per_channel tmul (reshape_1C11 (running_mean self))); simpl; try congruence.
  rewrite (broadcast2_per_channel tsub (reshape_1C11 (bias self))); simpl; try congruence.
  eexists _, _. split; [|split; [|reflexivity]]; unfold shape; simpl; congruence.
Qed.

(** X1: [forward] accepts an input exactly when its number of channels and the
    module's agree or one of them is 1, and then broadcasts: an input with a
    single channel comes back with the module's number of channels. *)
Theorem forward_accepts_iff_broadcastable {A} `{!Dtype A} (self : t A) (x : Tensor A)
    (n : nat) :
  num_features self n →
  (n = tC x ∨ n = 1 ∨ tC x = 1 →
     ∃ y, forward self x = Ok y
       ∧ shape y = [tB x; if decide (tC x = 1) then n else tC x; tH x; tW x])
  ∧ (¬ (n = tC x ∨ n = 1 ∨ tC x = 1) → raises (forward self x)).
Proof.
  intros Hn. destruct (forward_unfold self x n Hn) as (scale & shift & Hs & Hb & ->).
  injection Hs as HsB HsC HsH HsW. injection Hb as HbB HbC HbH HbW.
  split.
  - intros Hcompat. unfold broadcast2 at 2.
    rewrite HsB, HsC, HsH, HsW, !broadcast_dim_one_r, broadcast_dim_channels by done.
    simpl. unfold broadcast2; simpl.
    rewrite HbB, HbC, HbH, HbW, !broadcast_dim_one_r. simpl.
    assert (broadcast_dim (if decide (tC x = 1) then n else tC x) n
              = Ok (if decide (tC x = 1) then n else tC x)) as ->.
    { case_decide; [apply broadcast_dim_same|].
      destruct Hcompat as [->|[->|]]; [apply broadcast_dim_same|apply broadcast_dim_one_r|done]. }
    simpl. by eexists.
  - intros Hbad.
    destruct (broadcast2_mismatch tmul x scale) as [e ->]; [done|lia..|by eexists].
Qed.

Lemma forward_accepts_iff_broadcastable_witness :
  (3 = 1 ∨ 3 = 1 ∨ 1 = 1 →
     ∃ y, forward (init 3 (Fin 0)) (mkTensor 2 1 4 5 (λ _ _ _ _, Fin 7)) = Ok y
       ∧ shape y = [2; 3; 4; 5])
  ∧ (¬ (3 = 1 ∨ 3 = 1 ∨ 1 = 1) →
     raises (forward (init 3 (Fin 0)) (mkTensor 2 1 4 5 (λ _ _ _ _, Fin 7)))).
Proof.
  apply (forward_accepts_iff_broadcastable (init 3 (Fin 0))
           (mkTensor 2 1 4 5 (λ _ _ _ _, Fin 7)) 3).
  repeat split; reflexivity.
Defined.

(** X2: the output at a position is a function of the input at that position
    and of the statistics of its channel: no other position, channel or
    sample of the batch takes part. *)
Theorem forward_position_independent {A} `{!Dtype A} (self : t A) (x x' : Tensor A)
    (b c h w : nat) :
  num_features self (tC x) → shape x' = shape x →
  b < tB x → c < tC x → h < tH x → w < tW x →
  tat x' b c h w = tat x b c h w →
  ∃ y y', forward self x = Ok y ∧ forward self x' = Ok y'
    ∧ tat y' b c h w = tat y b c h w.
Proof.
  intros Hn Hshape Hb Hc Hh Hw Hx. injection Hshape as HB HC HH HW.
  destruct (forward_per_channel self x Hn) as (y & Hy & _ & Hval).
  rewrite <-HC in Hn.
  destruct (forward_per_channel self x' Hn) as (y' & Hy' & _ & Hval').
  exists y, y'. split; [done|]. split; [done|].
  rewrite Hval, Hval'. simpl. rewrite HB, HC, HH, HW, !bidx_lt by done.
  by rewrite Hx.
Qed.

Lemma forward_position_independent_witness :
  ∃ y y',
    forward (init 2 (Fin 0)) (mkTensor 2 2 1 1 (λ b _ _ _, Fin (INR b))) = Ok y
    ∧ forward (init 2 (Fin 0)) (mkTensor 2 2 1 1 (λ _ _ _ _, Fin 0)) = Ok y'
    ∧ tat y' 0 1 0 0 = tat y 0 1 0 0.
Proof.
  apply (forward_position_independent (init 2 (Fin 0))
           (mkTensor 2 2 1 1 (λ b _ _ _, Fin (INR b)))
           (mkTensor 2 2 1 1 (λ _ _ _ _, Fin 0)) 0 1 0 0);
    try reflexivity; try (simpl; lia).
  repeat split; reflexivity.
Defined.

Lemma nth_replicate {A} (c n : nat) (v d : A) : c < n → nth c (replicate n v) d = v.
Proof.
  revert c. induction n as [|n IH]; intros [|c] Hc; simpl; try lia; [done|].
  apply IH. lia.
Qed.

(** X3: in exact arithmetic with the IEEE special values, a module as
    [__init__] leaves it, with unit weight and variance and zero bias and
    mean, and with [eps] above -1, divides every finite value of its input
    by [sqrt(1 + eps)]; for [eps = 0] it returns the value. *)
Theorem forward_after_init (n : nat) (e : R) (x : Tensor xreal) :
  tC x = n → (-1 < e)%R →
  ∃ y, forward (init n (Fin e)) x = Ok y ∧ shape y = shape x
    ∧ (∀ b c h w r, b < tB x → c < tC x → h < tH x → w < tW x →
         tat x b c h w = Fin r → tat y b c h w = Fin (r / sqrt (1 + e)))
    ∧ (e = 0%R → ∀ b c h w r, b < tB x → c < tC x → h < tH x → w < tW x →
         tat x b c h w = Fin r → tat y b c h w = Fin r).
Proof.
  intros HC He.
  destruct (forward_per_channel (init n (Fin e)) x) as (y & Hy & Hshape & Hval).
  { rewrite HC. apply init_num_features. }
  assert (∀ b c h w r, b < tB x → c < tC x → h < tH x → w < tW x →
            tat x b c h w = Fin r → tat y b c h w = Fin (r / sqrt (1 + e))) as Hform.
  { intros b c h w r Hb Hc Hh Hw Hx. rewrite Hval. simpl.
    rewrite !bidx_lt, !nth_replicate, Hx by lia. simpl.
    destruct (Rlt_dec 0 (1 + e)) as [_|Hneg]; [|lra]. simpl.
    f_equal. unfold Rdiv. ring. }
  exists y. split; [done|]. split; [done|]. split; [done|].
  intros -> b c h w r Hb Hc Hh Hw Hx. rewrite (Hform b c h w r) by done.
  f_equal. rewrite Rplus_0_r, sqrt_1. lra.
Qed.

Lemma forward_after_init_witness :
  let x := mkTensor 1 2 3 3 (λ _ c _ _, Fin (INR c)) in
  ∃ y, forward (init 2 (Fin (1 / 100000))) x = Ok y ∧ shape y = shape x
    ∧ (∀ b c h w r, b < tB x → c < tC x → h < tH x → w < tW x →
         tat x b c h w = Fin r → tat y b c h w = Fin (r / sqrt (1 + 1 / 100000)))
    ∧ ((1 / 100000)%R = 0%R → ∀ b c h w r, b < tB x → c < tC x → h < tH x → w < tW x →
         tat x b c h w = Fin r → tat y b c h w = Fin r).
Proof.
  intros x. apply (forward_after_init 2 (1 / 100000)%R x); [reflexivity|lra].
Defined.

Lemma xmul_not_finite_r (a b : xreal) : ¬ xfinite b → ¬ xfinite (xmul a b).
Proof.
  intros Hb [r Hr]. destruct a as [ra| | |], b as [rb| | |]; simpl in Hr;
    try discriminate; try (by apply Hb; eexists);
    unfold xinf_times in Hr; repeat destruct (Rlt_dec _ _); discriminate.
Qed.

Lemma xadd_not_finite_l (a b : xreal) : ¬ xfinite a → ¬ xfinite (xadd a b).
Proof.
  intros Ha [r Hr]. destruct a as [ra| | |], b as [rb| | |]; simpl in Hr;
    try discriminate. apply Ha. by eexists.
Qed.

(** X4: without [eps] a channel of zero variance is lost: in exact arithmetic
    with the IEEE special values its output is an infinity or a NaN at
    every position, whatever the input and the other statistics are. *)
Theorem forward_without_eps_not_finite (self : t xreal) (x : Tensor xreal)
    (b c h w : nat) :
  num_features self (tC x) →
  eps self = Fin 0 →
  nth c (running_var self) (Fin 0) = Fin 0 →
  b < tB x → c < tC x → h < tH x → w < tW x →
  ∃ y, forward self x = Ok y ∧ ¬ xfinite (tat y b c h w).
Proof.
  intros Hn Heps Hvar Hb Hc Hh Hw.
  destruct (forward_per_channel self x Hn) as (y & Hy & _ & Hval).
  exists y. split; [done|]. rewrite Hval. simpl. rewrite !bidx_lt by done.
  rewrite Heps, Hvar. simpl.
  destruct (Rlt_dec 0 (0 + 0)) as [H|_]; [lra|].
  destruct (Rlt_dec (0 + 0) 0) as [H|_]; [lra|].
  apply xadd_not_finite_l, xmul_not_finite_r, xmul_not_finite_r.
  by intros [r Hr].
Qed.

Lemma forward_without_eps_not_finite_witness :
  ∃ y, forward (mk [Fin 2] [Fin 1] [Fin 5] [Fin 0] (Fin 0))
         (mkTensor 1 1 1 1 (λ _ _ _ _, Fin 3)) = Ok y
    ∧ ¬ xfinite (tat y 0 0 0 0).
Proof.
  apply (forward_without_eps_not_finite (mk [Fin 2] [Fin 1] [Fin 5] [Fin 0] (Fin 0))
           (mkTensor 1 1 1 1 (λ _ _ _ _, Fin 3)) 0 0 0 0);
    try reflexivity; try (simpl; lia).
  repeat split; reflexivity.
Defined.

(** *** Restoring a checkpoint *)

Lemma load_local_found {A} (sd : gmap string (ckpt_tensor A)) (prefix name : string)
    (strict : bool) (param : list A) (missing errors : list string)
    (input : ckpt_tensor A) :
  sd !! (prefix +:+ name) = Some input →
  ck_shape input = [length param] →
  load_local sd prefix strict name param missing errors = (ck_data input, missing, errors).
Proof. intros Hin Hshape. unfold load_local. by rewrite Hin, decide_True. Qed.

Lemma load_local_absent {A} (sd : gmap string (ckpt_tensor A)) (prefix name : string)
    (strict : bool) (param : list A) (missing errors : list string) :
  sd !! (prefix +:+ name) = None →
  load_local sd prefix strict name param missing errors
    = (param, if strict then missing ++ [prefix +:+ name] else missing, errors).
Proof. intros Hin. unfold load_local. by rewrite Hin. Qed.

Lemma lookup_delete_counter {A} (sd : gmap string (ckpt_tensor A)) (prefix name : string) :
  name ∈ local_names →
  delete (prefix +:+ "num_batches_tracked") sd !! (prefix +:+ name) = sd !! (prefix +:+ name).
Proof.
  intros Hname. apply lookup_delete_ne. intros Heq. by apply (buffer_key_ne prefix name).
Qed.

Lemma filter_none {B} (P : B → Prop) `{!∀ x, Decision (P x)} (l : list B) :
  (∀ x, x ∈ l → ¬ P x) → filter P l = [].
Proof.
  induction l as [|x l IH]; intros Hl; [done|].
  rewrite filter_cons_False by (apply Hl; left).
  apply IH. intros y Hy. apply Hl. by right.
Qed.

Lemma buffer_key_expected (prefix name : string) :
  name ∈ local_names → is_unexpected prefix (prefix +:+ name) = false.
Proof.
  intros Hname. unfold is_unexpected. rewrite prefix_append, string_drop_append.
  unfold local_names in Hname. rewrite !elem_of_cons, elem_of_nil in Hname.
  destruct Hname as [->|[->|[->|[->|[]]]]]; reflexivity.
Qed.

(** The keys of a dictionary that start with [prefix] are those of the
    module: its four buffers and, possibly, the batch counter. *)
Definition only_module_keys {A} (sd : gmap string (ckpt_tensor A)) (prefix : string) : Prop :=
  ∀ key, is_Some (sd !! key) → String.prefix prefix key = true →
    key = prefix +:+ "num_batches_tracked"
    ∨ ∃ name, name ∈ local_names ∧ key = prefix +:+ name.

(** X5: a strict load from a dictionary that holds the four buffers with
    the shapes of the module, with or without the batch counter beside
    them, copies the four tensors and reports nothing: [missing_keys],
    [unexpected_keys] and [error_msgs] are as the caller passed them, and
    [eps] is untouched. *)
Theorem strict_load_of_module_keys {A} (self : t A) (io : load_io A) (prefix : string)
    (w b rm rv : ckpt_tensor A) :
  state_dict io !! (prefix +:+ "weight") = Some w →
  state_dict io !! (prefix +:+ "bias") = Some b →
  state_dict io !! (prefix +:+ "running_mean") = Some rm →
  state_dict io !! (prefix +:+ "running_var") = Some rv →
  ck_shape w = [length (weight self)] →
  ck_shape b = [length (bias self)] →
  ck_shape rm = [length (running_mean self)] →
  ck_shape rv = [length (running_var self)] →
  only_module_keys (state_dict io) prefix →
  _load_from_state_dict self io prefix true =
    (mk (ck_data w) (ck_data b) (ck_data rm) (ck_data rv) (eps self),
     mk_io (delete (prefix +:+ "num_batches_tracked") (state_dict io))
       (missing_keys io) (unexpected_keys io) (error_msgs io)).
Proof.
  intros Hw Hb Hrm Hrv Sw Sb Srm Srv Hkeys.
  rewrite load_from_state_dict_unfold. unfold Module_load_from_state_dict. simpl.
  rewrite (load_local_found _ _ "weight" _ _ _ _ w), (load_local_found _ _ "bias" _ _ _ _ b),
    (load_local_found _ _ "running_mean" _ _ _ _ rm),
    (load_local_found _ _ "running_var" _ _ _ _ rv);
    try done; try (rewrite lookup_delete_counter; [done|unfold local_names; set_solver]).
  rewrite filter_none, app_nil_r; [done|].
  intros key Hkey Hun. apply list_elem_of_fmap in Hkey as ([k v] & -> & Hkv).
  apply elem_of_map_to_list in Hkv. simpl in *.
  destruct (decide (k = prefix +:+ "num_batches_tracked")) as [->|Hne].
  { by rewrite lookup_delete_eq in Hkv. }
  rewrite lookup_delete_ne in Hkv by done.
  assert (String.prefix prefix k = true) as Hpre.
  { unfold is_unexpected in Hun. by apply andb_prop in Hun as [? _]. }
  destruct (Hkeys k) as [->|(name & Hname & ->)]; [by eexists|done|done|].
  by rewrite buffer_key_expected in Hun.
Qed.

Lemma strict_load_of_module_keys_witness :
  let sd : gmap string (ckpt_tensor nat) :=
    <["bn1.weight" := mk_ckpt [2] [5; 6]]> (<["bn1.bias" := mk_ckpt [2] [7; 8]]>
    (<["bn1.running_mean" := mk_ckpt [2] [1; 2]]> (<["bn1.running_var" := mk_ckpt [2] [3; 4]]>
    (<["bn1.num_batches_tracked" := mk_ckpt [] [9]]> ∅)))) in
  _load_from_state_dict (mk [1; 1] [0; 0] [0; 0] [1; 1] 0) (mk_io sd [] [] []) "bn1." true =
    (mk [5; 6] [7; 8] [1; 2] [3; 4] 0,
     mk_io (delete ("bn1." +:+ "num_batches_tracked") sd) [] [] []).
Proof.
  intros sd.
  apply (strict_load_of_module_keys (mk [1; 1] [0; 0] [0; 0] [1; 1] 0) (mk_io sd [] [] [])
           "bn1." (mk_ckpt [2] [5; 6]) (mk_ckpt [2] [7; 8]) (mk_ckpt [2] [1; 2])
           (mk_ckpt [2] [3; 4])); try reflexivity.
  intros key [v Hv] _. unfold sd in Hv. simpl in Hv.
  repeat (rewrite lookup_insert in Hv; destruct (decide _) as [<-|_];
          [first [by left | right; eexists; split; [|reflexivity];
                            unfold local_names; rewrite !elem_of_cons; tauto]|]).
  by rewrite lookup_empty in Hv.
Defined.

(** The tensor [load_local] leaves in a buffer. *)
Definition loaded {A} (sd : gmap string (ckpt_tensor A)) (prefix name : string)
    (param : list A) : list A :=
  match sd !! (prefix +:+ name) with
  | Some input => if decide (ck_shape input = [length param]) then ck_data input else param
  | None => param
  end.

Lemma load_local_buffer {A} (sd : gmap string (ckpt_tensor A)) (prefix name : string)
    (strict : bool) (param : list A) (missing errors : list string) :
  (load_local sd prefix strict name param missing errors).1.1 = loaded sd prefix name param.
Proof. unfold load_local, loaded. destruct (sd !! _); [by case_decide|done]. Qed.

Lemma Module_load_buffers {A} (self : t A) (io : load_io A) (prefix : string) (strict : bool) :
  (Module_load_from_state_dict self io prefix strict).1 =
    mk (loaded (state_dict io) prefix "weight" (weight self))
       (loaded (state_dict io) prefix "bias" (bias self))
       (loaded (state_dict io) prefix "running_mean" (running_mean self))
       (loaded (state_dict io) prefix "running_var" (running_var self))
       (eps self).
Proof.
  unfold Module_load_from_state_dict.
  destruct (load_local _ _ _ "weight" _ _ _) as [[w m1] e1] eqn:H1.
  destruct (load_local _ _ _ "bias" _ _ _) as [[b m2] e2] eqn:H2.
  destruct (load_local _ _ _ "running_mean" _ _ _) as [[rm m3] e3] eqn:H3.
  destruct (load_local _ _ _ "running_var" _ _ _) as [[rv m4] e4] eqn:H4.
  simpl. f_equal.
  - by rewrite <-(load_local_buffer _ _ _ strict _ (missing_keys io) (error_msgs io)), H1.
  - by rewrite <-(load_local_buffer _ _ _ strict _ m1 e1), H2.
  - by rewrite <-(load_local_buffer _ _ _ strict _ m2 e2), H3.
  - by rewrite <-(load_local_buffer _ _ _ strict _ m3 e3), H4.
Qed.

(** A tensor holds as many elements as its shape says. *)
Definition ck_well_formed {A} (input : ckpt_tensor A) : Prop :=
  length (ck_data input) = foldr Nat.mul 1 (ck_shape input).

Lemma loaded_length {A} (sd : gmap string (ckpt_tensor A)) (prefix name : string)
    (param : list A) :
  map_Forall (λ _ input, ck_well_formed input) sd →
  length (loaded sd prefix name param) = length param.
Proof.
  intros Hwf. unfold loaded. destruct (sd !! _) as [input|] eqn:Hin; [|done].
  case_decide as Hshape; [|done].
  apply Hwf in Hin. unfold ck_well_formed in Hin. rewrite Hin, Hshape. simpl. lia.
Qed.

(** X6: a load never changes the number of channels of the module: a
    tensor of another shape is not copied, so a module for [n] channels is
    one for [n] channels after any load, strict or not, and [eps] is not
    restored from the dictionary. *)
Theorem load_keeps_num_features {A} (self : t A) (io : load_io A) (prefix : string)
    (strict : bool) (n : nat) :
  map_Forall (λ _ input, ck_well_formed input) (state_dict io) →
  num_features self n →
  num_features (_load_from_state_dict self io prefix strict).1 n
  ∧ eps (_load_from_state_dict self io prefix strict).1 = eps self.
Proof.
  intros Hwf (Hw & Hb & Hrm & Hrv).
  rewrite load_from_state_dict_unfold, Module_load_buffers. simpl.
  assert (map_Forall (λ (_ : string) (input : ckpt_tensor A), ck_well_formed input)
            (delete (prefix +:+ "num_batches_tracked") (state_dict io))) as Hwf'.
  { intros k input Hk. apply lookup_delete_Some in Hk as [_ Hk]. by apply (Hwf k). }
  split; [|done]. unfold num_features; simpl. by rewrite !loaded_length.
Qed.

Lemma load_keeps_num_features_witness :
  let sd : gmap string (ckpt_tensor nat) :=
    <["bn1.weight" := mk_ckpt [3] [5; 6; 7]]> (<["bn1.bias" := mk_ckpt [2] [7; 8]]> ∅) in
  let self := mk [1; 1] [0; 0] [0; 0] [1; 1] 0 in
  num_features (_load_from_state_dict self (mk_io sd [] [] []) "bn1." true).1 2
  ∧ eps (_load_from_state_dict self (mk_io sd [] [] []) "bn1." true).1 = eps self.
Proof.
  intros sd self.
  apply (load_keeps_num_features self (mk_io sd [] [] []) "bn1." true 2).
  - intros key input Hin. unfold sd in Hin. simpl in Hin.
    repeat (rewrite lookup_insert in Hin; destruct (decide _) as [_|_];
            [by injection Hin as <-|]).
    by rewrite lookup_empty in Hin.
  - repeat split; reflexivity.
Defined.

(** What one buffer adds to [missing_keys] and to [error_msgs]. *)
Definition missing_of {A} (sd : gmap string (ckpt_tensor A)) (prefix name : string)
    (strict : bool) : list string :=
  match sd !! (prefix +:+ name) with
  | Some _ => []
  | None => if strict then [prefix +:+ name] else []
  end.

Definition errors_of {A} (sd : gmap string (ckpt_tensor A)) (prefix name : string)
    (param : list A) : list string :=
  match sd !! (prefix +:+ name) with
  | Some input =>
      if decide (ck_shape input = [length param]) then []
      else [size_mismatch (prefix +:+ name) (ck_shape input) [length param]]
  | None => []
  end.

Lemma load_local_reports {A} (sd : gmap string (ckpt_tensor A)) (prefix name : string)
    (strict : bool) (param : list A) (missing errors : list string) :
  load_local sd prefix strict name param missing errors =
    (loaded sd prefix name param,
     missing ++ missing_of sd prefix name strict,
     errors ++ errors_of sd prefix name param).
Proof.
  unfold load_local, loaded, missing_of, errors_of.
  destruct (sd !! _); [case_decide|destruct strict]; by rewrite ?app_nil_r.
Qed.

Lemma Module_load_reports {A} (self : t A) (io : load_io A) (prefix : string) (strict : bool) :
  let sd := state_dict io in
  let r := Module_load_from_state_dict self io prefix strict in
  missing_keys r.2 =
    missing_keys io ++ missing_of sd prefix "weight" strict ++ missing_of sd prefix "bias" strict
      ++ missing_of sd prefix "running_mean" strict ++ missing_of sd prefix "running_var" strict
  ∧ error_msgs r.2 =
    error_msgs io ++ errors_of sd prefix "weight" (weight self)
      ++ errors_of sd prefix "bias" (bias self)
      ++ errors_of sd prefix "running_mean" (running_mean self)
      ++ errors_of sd prefix "running_var" (running_var self).
Proof.
  intros sd r. unfold r, Module_load_from_state_dict. fold sd.
  rewrite !load_local_reports. simpl. by rewrite <-!app_assoc.
Qed.

(** X7: a load from a dictionary that holds none of the four buffers
    leaves the module as it is; a strict load reports the four keys in
    [missing_keys], in the order of registration, and a load that is not
    strict reports nothing. *)
Theorem load_without_buffers {A} (self : t A) (io : load_io A) (prefix : string)
    (strict : bool) :
  (∀ name, name ∈ local_names → state_dict io !! (prefix +:+ name) = None) →
  (_load_from_state_dict self io prefix strict).1 = self
  ∧ missing_keys (_load_from_state_dict self io prefix strict).2 =
      missing_keys io ++ (if strict then (λ name, prefix +:+ name) <$> local_names else [])
  ∧ error_msgs (_load_from_state_dict self io prefix strict).2 = error_msgs io
  ∧ (strict = false →
     unexpected_keys (_load_from_state_dict self io prefix strict).2 = unexpected_keys io).
Proof.
  intros Habsent. rewrite load_from_state_dict_unfold.
  assert (∀ name, name ∈ local_names →
            delete (prefix +:+ "num_batches_tracked") (state_dict io) !! (prefix +:+ name)
              = None) as Hnone.
  { intros name Hname. rewrite lookup_delete_counter by done. by apply Habsent. }
  assert ("weight" ∈ local_names ∧ "bias" ∈ local_names ∧ "running_mean" ∈ local_names
          ∧ "running_var" ∈ local_names) as (Hw & Hb & Hrm & Hrv).
  { unfold local_names. rewrite !elem_of_cons. tauto. }
  split; [|split; [|split]].
  - rewrite Module_load_buffers. simpl. unfold loaded. rewrite !Hnone by done.
    by destruct self.
  - destruct (Module_load_reports self
      (mk_io (delete (prefix +:+ "num_batches_tracked") (state_dict io))
         (missing_keys io) (unexpected_keys io) (error_msgs io)) prefix strict) as [-> _].
    simpl. unfold missing_of. rewrite !Hnone by done. by destruct strict.
  - destruct (Module_load_reports self
      (mk_io (delete (prefix +:+ "num_batches_tracked") (state_dict io))
         (missing_keys io) (unexpected_keys io) (error_msgs io)) prefix strict) as [_ ->].
    simpl. unfold errors_of. rewrite !Hnone by done. by rewrite app_nil_r.
  - intros ->. rewrite Module_load_unexpected. simpl. by rewrite app_nil_r.
Qed.

Lemma load_without_buffers_witness :
  let sd : gmap string (ckpt_tensor nat) := {["layer1.0.bn1.weight" := mk_ckpt [2] [5; 6]]} in
  let self := mk [1; 1] [0; 0] [0; 0] [1; 1] 0 in
  let io := mk_io sd ["conv1.weight"] [] [] in
  (_load_from_state_dict self io "bn1." true).1 = self
  ∧ missing_keys (_load_from_state_dict self io "bn1." true).2 =
      ["conv1.weight"; "bn1.weight"; "bn1.bias"; "bn1.running_mean"; "bn1.running_var"]
  ∧ error_msgs (_load_from_state_dict self io "bn1." true).2 = []
  ∧ (true = false →
     unexpected_keys (_load_from_state_dict self io "bn1." true).2 = []).
Proof.
  intros sd self io. apply (load_without_buffers self io "bn1." true).
  intros name Hname. unfold local_names in Hname.
  rewrite !elem_of_cons, elem_of_nil in Hname.
  destruct Hname as [->|[->|[->|[->|[]]]]]; reflexivity.
Defined.

(** [getattr(self, name)] for the name of a buffer. *)
Definition buffer {A} (self : t A) (name : string) : list A :=
  if String.eqb name "weight" then weight self
  else if String.eqb name "bias" then bias self
  else if String.eqb name "running_mean" then running_mean self
  else running_var self.

(** X8: a tensor whose shape is not that of the buffer it is stored for
    is not copied: the buffer keeps its value, and the load, strict or not,
    adds to [error_msgs] the message that names the key, the shape in the
    checkpoint and the shape of the buffer. *)
Theorem load_size_mismatch {A} (self : t A) (io : load_io A) (prefix name : string)
    (strict : bool) (input : ckpt_tensor A) :
  name ∈ local_names →
  state_dict io !! (prefix +:+ name) = Some input →
  ck_shape input ≠ [length (buffer self name)] →
  buffer (_load_from_state_dict self io prefix strict).1 name = buffer self name
  ∧ size_mismatch (prefix +:+ name) (ck_shape input) [length (buffer self name)]
      ∈ error_msgs (_load_from_state_dict self io prefix strict).2.
Proof.
  intros Hname Hin Hshape. rewrite load_from_state_dict_unfold.
  rewrite <-(lookup_delete_counter _ _ _ Hname) in Hin.
  destruct (Module_load_reports self
    (mk_io (delete (prefix +:+ "num_batches_tracked") (state_dict io))
       (missing_keys io) (unexpected_keys io) (error_msgs io)) prefix strict) as [_ ->].
  rewrite Module_load_buffers. simpl.
  unfold local_names in Hname. rewrite !elem_of_cons, elem_of_nil in Hname.
  destruct Hname as [->|[->|[->|[->|[]]]]]; simpl in *;
    (split; [unfold loaded; by rewrite Hin, decide_False|]);
    unfold errors_of at 1 2 3 4; rewrite Hin, decide_False by done;
    rewrite !elem_of_app, list_elem_of_singleton; tauto.
Qed.

Lemma load_size_mismatch_witness :
  let sd : gmap string (ckpt_tensor nat) := {["bn1.bias" := mk_ckpt [3] [5; 6; 7]]} in
  let self := mk [1; 1] [0; 0] [0; 0] [1; 1] 0 in
  let io := mk_io sd [] [] [] in
  buffer (_load_from_state_dict self io "bn1." false).1 "bias" = [0; 0]
  ∧ "size mismatch for bn1.bias: copying a param with shape torch.Size([3]) from checkpoint, the shape in current model is torch.Size([2])."
      ∈ error_msgs (_load_from_state_dict self io "bn1." false).2.
Proof.
  intros sd self io.
  apply (load_size_mismatch self io "bn1." "bias" false (mk_ckpt [3] [5; 6; 7])).
  - unfold local_names. rewrite !elem_of_cons. tauto.
  - reflexivity.
  - discriminate.
Defined.

Example size_mismatch_of_a_convolution :
  size_mismatch "conv1.weight" [64; 3; 7; 7] [] =
    "size mismatch for conv1.weight: copying a param with shape torch.Size([64, 3, 7, 7]) from checkpoint, the shape in current model is torch.Size([]).".
Proof. reflexivity. Qed.

(** X17: [forward] after a load computes with the statistics of the
    checkpoint: with the four buffers in the dictionary, of the shape of the
    module, the output is [x * scale[c] + (bias[c] - running_mean[c] *
    scale[c])] with [scale[c] = weight[c] * rsqrt(running_var[c] + eps)] for
    the loaded [weight], [bias], [running_mean] and [running_var] and the
    [eps] of the module, every operation being that of the element type. *)
Theorem forward_after_load {A} `{!Dtype A} (self : t A) (io : load_io A)
    (prefix : string) (strict : bool) (w b rm rv : ckpt_tensor A) (x : Tensor A) :
  state_dict io !! (prefix +:+ "weight") = Some w →
  state_dict io !! (prefix +:+ "bias") = Some b →
  state_dict io !! (prefix +:+ "running_mean") = Some rm →
  state_dict io !! (prefix +:+ "running_var") = Some rv →
  ck_shape w = [length (weight self)] → ck_well_formed w →
  ck_shape b = [length (bias self)] → ck_well_formed b →
  ck_shape rm = [length (running_mean self)] → ck_well_formed rm →
  ck_shape rv = [length (running_var self)] → ck_well_formed rv →
  num_features self (tC x) →
  ∃ y, forward (_load_from_state_dict self io prefix strict).1 x = Ok y
    ∧ shape y = shape x
    ∧ ∀ i c h j, i < tB x → c < tC x → h < tH x → j < tW x →
        let scale := tmul (nth c (ck_data w) tzero)
                          (trsqrt (tadd (nth c (ck_data rv) tzero) (eps self))) in
        tat y i c h j =
          tadd (tmul (tat x i c h j) scale)
               (tsub (nth c (ck_data b) tzero) (tmul (nth c (ck_data rm) tzero) scale)).
Proof.
  intros Hw Hb Hrm Hrv Sw Ww Sb Wb Srm Wrm Srv Wrv (Lw & Lb & Lrm & Lrv).
  assert ((_load_from_state_dict self io prefix strict).1
            = mk (ck_data w) (ck_data b) (ck_data rm) (ck_data rv) (eps self)) as ->.
  { rewrite load_from_state_dict_unfold, Module_load_buffers. simpl. unfold loaded.
    rewrite !lookup_delete_counter by (unfold local_names; rewrite !elem_of_cons; tauto).
    by rewrite Hw, Hb, Hrm, Hrv, !decide_True. }
  unfold ck_well_formed in *. rewrite Sw in Ww. rewrite Sb in Wb.
  rewrite Srm in Wrm. rewrite Srv in Wrv. simpl in Ww, Wb, Wrm, Wrv.
  destruct (forward_per_channel (mk (ck_data w) (ck_data b) (ck_data rm) (ck_data rv) (eps self)) x)
    as (y & Hy & Hshape & Hval).
  { unfold num_features; simpl. lia. }
  exists y. split; [done|]. split; [done|].
  intros i c h j Hi Hc Hh Hj. rewrite Hval. simpl.
  rewrite !bidx_lt by done. done.
Qed.

Lemma forward_after_load_witness :
  let sd : gmap string (ckpt_tensor float) :=
    <["bn1.weight" := mk_ckpt [1] [2%float]]> (<["bn1.bias" := mk_ckpt [1] [3%float]]>
    (<["bn1.running_mean" := mk_ckpt [1] [5%float]]>
    (<["bn1.running_var" := mk_ckpt [1] [4%float]]>
    (<["bn1.num_batches_tracked" := mk_ckpt [] [9%float]]> ∅)))) in
  let x := mkTensor 1 1 2 2 (λ _ _ h w, if decide (h = w) then 1%float else 0.5%float) in
  let self := init 1 0%float in
  ∃ y, forward (_load_from_state_dict self (mk_io sd [] [] []) "bn1." true).1 x = Ok y
    ∧ shape y = shape x
    ∧ ∀ i c h j, i < tB x → c < tC x → h < tH x → j < tW x →
        let scale := tmul (nth c [2%float] tzero)
                          (trsqrt (tadd (nth c [4%float] tzero) (eps self))) in
        tat y i c h j =
          tadd (tmul (tat x i c h j) scale)
               (tsub (nth c [3%float] tzero) (tmul (nth c [5%float] tzero) scale)).
Proof.
  intros sd x self.
  apply (forward_after_load self (mk_io sd [] [] []) "bn1." true
           (mk_ckpt [1] [2%float]) (mk_ckpt [1] [3%float]) (mk_ckpt [1] [5%float])
           (mk_ckpt [1] [4%float]) x);
    try reflexivity.
  repeat split; reflexivity.
Defined.

End FrozenBatchNorm2dMore.

(** ** The extractor on any input *)

Section extractor_more.
Context {elt : Type}.
Variable cast : dtype → elt → elt.
Variable torchvision_models : string → list bool → bool → result (@ResNet elt).
Variable is_main_process : bool.

#[local] Abbreviation FloatTensor := (@FloatTensor elt).
#[local] Abbreviation NestedTensor := (@NestedTensor elt).
#[local] Abbreviation ResNet := (@ResNet elt).
#[local] Abbreviation BackboneBase := (@BackboneBase elt).
#[local] Abbreviation Joiner := (@Joiner elt).

(** X9: on an input that carries a mask, the support branch called with
    the mode the extractor was constructed in returns what the primary
    extraction returns, levels and exceptions alike, and so do the two
    entry points of the composer. *)
Theorem support_branch_matches_primary (name : string)
    (train_backbone multi dilation : bool) (self : BackboneBase)
    (pe : NestedTensor → FloatTensor) (x : NestedTensor) :
  Backbone_init torchvision_models is_main_process name train_backbone multi dilation
    = Ok self →
  is_Some (mask x) →
  support_encoding_net self x multi = BackboneBase_forward self x
  ∧ Joiner_forward_supp_branch cast (Joiner_init self pe) x multi
    = Joiner_forward cast (Joiner_init self pe) x.
Proof.
  intros Hinit [m Hm].
  destruct (Backbone_init_Ok_inv _ _ _ _ _ _ _ Hinit)
    as (net & _ & _ & Hnet & _ & _ & Hbody).
  assert (support_encoding_net self x multi = BackboneBase_forward self x) as Heq.
  { unfold BackboneBase_forward. rewrite Hbody.
    unfold support_encoding_net. rewrite Hnet, Hm.
    fold (stem net (tensors x)). fold (tap_layer2 net (tensors x)).
    fold (tap_layer3 net (tensors x)). fold (tap_layer4 net (tensors x)).
    destruct multi; simpl.
    - destruct (interpolate_mask (Some m) (tap_layer2 net (tensors x))); simpl; [|done].
      destruct (interpolate_mask (Some m) (tap_layer3 net (tensors x))); simpl; [|done].
      by destruct (interpolate_mask (Some m) (tap_layer4 net (tensors x))).
    - by destruct (interpolate_mask (Some m) (tap_layer4 net (tensors x))). }
  split; [done|]. unfold Joiner_forward_supp_branch, Joiner_forward. simpl.
  by rewrite Heq.
Qed.

(** X10: the one level of a single-level support extraction is the deepest
    level of the multi-level one, the same tensor with the same mask, under
    the key ["0"] instead of ["2"]. *)
Theorem single_level_is_deepest (self : BackboneBase) (x : NestedTensor)
    (out : dict NestedTensor) :
  support_encoding_net self x true = Ok out →
  ∃ l0 l1 l2, out = [("0", l0); ("1", l1); ("2", l2)]
    ∧ support_encoding_net self x false = Ok [("0", l2)].
Proof.
  unfold support_encoding_net.
  set (x2 := layer2 (backbone self) _). set (x3 := layer3 (backbone self) x2).
  set (x4 := layer4 (backbone self) x3). simpl.
  destruct (interpolate_mask (mask x) x2) as [m2|]; simpl; [|done].
  destruct (interpolate_mask (mask x) x3) as [m3|]; simpl; [|done].
  destruct (interpolate_mask (mask x) x4) as [m4|]; simpl; [|done].
  intros [= <-]. by eexists _, _, _.
Qed.

(** ** Values of the resized masks *)

Lemma nearest_idx_lt (dst in_size out_size : nat) :
  0 < in_size → nearest_idx dst in_size out_size < in_size.
Proof. unfold nearest_idx. lia. Qed.

Lemma nearest_idx_same (i n : nat) : i < n → nearest_idx i n n = i.
Proof. intros Hi. unfold nearest_idx. rewrite Nat.div_mul by lia. lia. Qed.

Lemma interpolate_mask_inv (om : option Mask) (x : FloatTensor) (ml : Mask) :
  interpolate_mask om x = Ok ml →
  ∃ m, om = Some m ∧ mask_nonempty m ∧ spatial x ∧ ml = resized m x.
Proof.
  destruct om as [m|]; [|done]. unfold interpolate_mask, interpolate; simpl.
  case_decide as H1; simpl; [done|]. case_decide as H2; simpl; [done|].
  unfold getitem_0; simpl. intros [= <-].
  exists m. split; [done|]. unfold mask_nonempty, spatial.
  split; [lia|]. split; [lia|done].
Qed.

(** A level whose mask is the mask [om] of the input resized for its
    tensor. *)
Definition level_from (om : option Mask) (level : NestedTensor) : Prop :=
  ∃ ml, mask level = Some ml ∧ interpolate_mask om (tensors level) = Ok ml.

Lemma forward_loop_level_from (om : option Mask) (xs : dict FloatTensor)
    (acc out : dict NestedTensor) :
  Forall (λ kv, level_from om kv.2) acc →
  forward_loop om xs acc = Ok out →
  Forall (λ kv, level_from om kv.2) out.
Proof.
  revert acc. induction xs as [|[name x] xs IH]; simpl; intros acc Hacc.
  - by intros [= <-].
  - destruct (py_assert _ _); simpl; [|done].
    destruct (interpolate_mask om x) as [ml|] eqn:Hml; simpl; [|done].
    apply IH. apply dict_set_Forall; [done|]. by exists ml.
Qed.

Lemma extract_level_from (self : BackboneBase) (e : entry) (x : NestedTensor)
    (out : dict NestedTensor) :
  extract self e x = Ok out → Forall (λ kv, level_from (mask x) kv.2) out.
Proof.
  destruct e as [|flag]; simpl.
  - unfold BackboneBase_forward. by apply forward_loop_level_from.
  - unfold support_encoding_net.
    set (x2 := layer2 (backbone self) _). set (x3 := layer3 (backbone self) x2).
    set (x4 := layer4 (backbone self) x3).
    destruct flag; simpl.
    + destruct (interpolate_mask (mask x) x2) as [m2|] eqn:H2; simpl; [|done].
      destruct (interpolate_mask (mask x) x3) as [m3|] eqn:H3; simpl; [|done].
      destruct (interpolate_mask (mask x) x4) as [m4|] eqn:H4; simpl; [|done].
      intros [= <-]. repeat constructor; simpl; by eexists.
    + destruct (interpolate_mask (mask x) x4) as [m4|] eqn:H4; simpl; [|done].
      intros [= <-]. repeat constructor; simpl; by eexists.
Qed.

(** X11: the mask of every level either extraction returns has the batch
    size of the mask of the input, and each of its pixels is a pixel of the
    mask of the input, read inside its bounds; so a batch without padding
    gives levels without padding, and a batch that is all padding levels
    that are all padding. *)
Theorem level_masks_read_input_mask (self : BackboneBase) (e : entry) (x : NestedTensor)
    (out : dict NestedTensor) (m : Mask) :
  extract self e x = Ok out →
  mask x = Some m →
  Forall (λ kv, ∃ ml, mask kv.2 = Some ml ∧ mB ml = mB m
            ∧ ∀ b i j, ∃ i' j', i' < mH m ∧ j' < mW m ∧ mat ml b i j = mat m b i' j') out
  ∧ ∀ v, (∀ b i j, i < mH m → j < mW m → mat m b i j = v) →
      Forall (λ kv, ∃ ml, mask kv.2 = Some ml ∧ ∀ b i j, mat ml b i j = v) out.
Proof.
  intros Hout Hm. apply extract_level_from in Hout. rewrite Hm in Hout.
  assert (Forall (λ kv : string * NestedTensor, ∃ ml, mask kv.2 = Some ml ∧ mB ml = mB m
            ∧ ∀ b i j, ∃ i' j', i' < mH m ∧ j' < mW m ∧ mat ml b i j = mat m b i' j') out)
    as Hread.
  { eapply Forall_impl; [exact Hout|]. intros [k l] (ml & Hml & Hint). simpl in *.
    apply interpolate_mask_inv in Hint as (m' & [= <-] & (_ & HH & HW) & _ & ->).
    exists (resized m (tensors l)). split; [done|]. split; [done|].
    intros b i j. eexists _, _. split; [|split; [|apply resized_values]];
      by apply nearest_idx_lt. }
  split; [done|]. intros v Hv.
  eapply Forall_impl; [exact Hread|]. intros [k l] (ml & Hml & _ & Hval). simpl in *.
  exists ml. split; [done|]. intros b i j.
  destruct (Hval b i j) as (i' & j' & Hi' & Hj' & ->). by apply Hv.
Qed.

(** X12: resizing a mask for a feature map of its own height and width
    returns its pixels as they are. *)
Theorem interpolate_mask_same_size (m : Mask) (x : FloatTensor) :
  mask_nonempty m →
  shape_last2 (ft_val x) = (mH m, mW m) →
  ∃ ml, interpolate_mask (Some m) x = Ok ml
    ∧ (mB ml, mH ml, mW ml) = (mB m, mH m, mW m)
    ∧ ∀ b i j, i < mH m → j < mW m → mat ml b i j = mat m b i j.
Proof.
  intros Hne. unfold shape_last2. intros [= HH HW].
  assert (spatial x) as Hx.
  { destruct Hne as (_ & ? & ?). unfold spatial. lia. }
  exists (resized m x). split; [by apply interpolate_mask_Some|].
  split; [simpl; congruence|].
  intros b i j Hi Hj. rewrite resized_values, HH, HW, !nearest_idx_same by done. done.
Qed.

(** X13: the extractor runs the trunk up to [layer4] and no further: with
    any other [avgpool] and [fc] in the trunk, both extractions return the
    same result. *)
Theorem classification_head_never_run (net : ResNet) (avgpool' fc' : Layer)
    (train_backbone multi flag : bool) (x : NestedTensor) :
  let net' := mkResNet (conv1 net) (bn1 net) (relu net) (maxpool net) (layer1 net)
                (layer2 net) (layer3 net) (layer4 net) avgpool' fc' in
  ∃ self self',
    BackboneBase_init net train_backbone multi = Ok self
    ∧ BackboneBase_init net' train_backbone multi = Ok self'
    ∧ BackboneBase_forward self' x = BackboneBase_forward self x
    ∧ support_encoding_net self' x flag = support_encoding_net self x flag.
Proof.
  intros net'.
  destruct (BackboneBase_init_Ok net train_backbone multi)
    as (self & Hinit & Hnet & _ & _ & Hbody).
  destruct (BackboneBase_init_Ok net' train_backbone multi)
    as (self' & Hinit' & Hnet' & _ & _ & Hbody').
  exists self, self'. split; [done|]. split; [done|]. split.
  - unfold BackboneBase_forward. rewrite Hbody, Hbody'. by destruct multi.
  - unfold support_encoding_net. by rewrite Hnet, Hnet'.
Qed.

(** ** Independence of the order the levels are produced in *)

Lemma NoDup_keys_functional {V} (d : dict V) (k : string) (v1 v2 : V) :
  NoDup (dict_keys d) → (k, v1) ∈ d → (k, v2) ∈ d → v1 = v2.
Proof.
  unfold dict_keys. induction d as [|[k' v'] d IH]; simpl; intros Hnd H1 H2.
  - by apply elem_of_nil in H1.
  - apply NoDup_cons in Hnd as [Hk' Hnd].
    assert (∀ v, (k', v) ∈ d → False) as Hfresh.
    { intros v Hv. apply Hk'. apply list_elem_of_fmap. by exists (k', v). }
    apply elem_of_cons in H1 as [H1|H1]; apply elem_of_cons in H2 as [H2|H2].
    + congruence.
    + injection H1 as -> _. by destruct (Hfresh v2).
    + injection H2 as -> _. by destruct (Hfresh v1).
    + by apply IH.
Qed.

Lemma sorted_items_permutation {V} (xs xs' : dict V) :
  NoDup (dict_keys xs) → xs' ≡ₚ xs → sorted_items xs' = sorted_items xs.
Proof.
  intros Hnd Hperm.
  destruct (sorted_items_spec xs) as [Hp Hs].
  destruct (sorted_items_spec xs') as [Hp' Hs'].
  apply (StronglySorted_unique_strong item_le); [|done|done|by rewrite Hp, Hp'].
  intros [k1 v1] [k2 v2] H1 H2 Hle1 Hle2. unfold item_le in *. simpl in *.
  assert (k1 = k2) as -> by by apply String.leb_antisym.
  f_equal. apply (NoDup_keys_functional xs k2); [done|..].
  - by rewrite <-Hperm, <-Hp'.
  - by rewrite <-Hp.
Qed.

(** X14: what the composer returns does not depend on the order in which
    the extractor produced the levels: two extractions that return the same
    levels in different orders give the same features and positions. *)
Theorem joiner_order_independent (self self' : Joiner) (e e' : entry)
    (x x' : NestedTensor) (xs xs' : dict NestedTensor) :
  joiner_1 self' = joiner_1 self →
  extract (joiner_0 self) e x = Ok xs →
  extract (joiner_0 self') e' x' = Ok xs' →
  xs' ≡ₚ xs →
  compose cast self' e' x' = compose cast self e x.
Proof.
  intros Hpe Hxs Hxs' Hperm.
  assert (sorted_items xs' = sorted_items xs) as Hsorted.
  { apply sorted_items_permutation; [|done]. by eapply extract_keys_NoDup. }
  assert (compose cast self e x =
            Ok ((sorted_items xs).*2,
                map (λ l, tensor_to cast (joiner_1 self l) (ft_dtype (tensors l)))
                  (sorted_items xs).*2)) as ->.
  { destruct e; simpl in *; unfold Joiner_forward, Joiner_forward_supp_branch;
      by rewrite Hxs. }
  assert (compose cast self' e' x' =
            Ok ((sorted_items xs').*2,
                map (λ l, tensor_to cast (joiner_1 self' l) (ft_dtype (tensors l)))
                  (sorted_items xs').*2)) as ->.
  { destruct e'; simpl in *; unfold Joiner_forward, Joiner_forward_supp_branch;
      by rewrite Hxs'. }
  by rewrite Hsorted, Hpe.
Qed.

(** ** [build_backbone] *)

(** The arguments [build_backbone] reads, and the positional encoding
    [build_position_encoding] builds from them or the exception it raises. *)
Variable Args : Type.
Variable args_lr_backbone : Args → float.
Variable args_num_feature_levels : Args → Z.
Variable args_backbone : Args → string.
Variable args_dilation : Args → bool.
Variable build_position_encoding : Args → result (NestedTensor → FloatTensor).

(** [build_backbone(args)] *)
Definition build_backbone (args : Args) : result Joiner :=
  position_embedding ← build_position_encoding args;
  let train_backbone := PrimFloat.ltb 0 (args_lr_backbone args) in
  let return_interm_layers := (1 <? args_num_feature_levels args)%Z in
  backbone ← Backbone_init torchvision_models is_main_process (args_backbone args)
                train_backbone return_interm_layers (args_dilation args);
  mret (Joiner_init backbone position_embedding).

(** X15: the composer [build_backbone] returns carries one stride and one
    channel count for each level its [forward] returns, in the order of the
    levels: [layer2], [layer3] and [layer4] with strides 8, 16 and 32 (16
    with dilation) whenever [num_feature_levels] exceeds 1, however many
    levels were asked for, and [layer4] alone otherwise. *)
Theorem build_backbone_metadata_aligned (args : Args) (self : Joiner) (x : NestedTensor) :
  build_backbone args = Ok self →
  valid_input (backbone (joiner_0 self)) x →
  let multi := (1 <? args_num_feature_levels args)%Z in
  let net := backbone (joiner_0 self) in
  joiner_strides self = (if multi then [8; 16; if args_dilation args then 16 else 32]
                         else [if args_dilation args then 16 else 32])%Z
  ∧ joiner_num_channels self = (if multi then [512; 1024; 2048] else [2048])%Z
  ∧ ∃ out pos, Joiner_forward cast self x = Ok (out, pos)
      ∧ length out = length (joiner_strides self)
      ∧ length pos = length (joiner_strides self)
      ∧ length (joiner_num_channels self) = length (joiner_strides self)
      ∧ map tensors out =
          if multi
          then [tap_layer2 net (tensors x); tap_layer3 net (tensors x);
                tap_layer4 net (tensors x)]
          else [tap_layer4 net (tensors x)].
Proof.
  intros Hbuild Hx multi net. unfold build_backbone in Hbuild.
  destruct (build_position_encoding args) as [pe|]; simpl in Hbuild; [|done].
  destruct (Backbone_init _ _ _ _ _ _) as [bb|] eqn:Hinit; simpl in Hbuild; [|done].
  injection Hbuild as <-. simpl in *.
  destruct (Backbone_init_Ok_inv _ _ _ _ _ _ _ Hinit)
    as (net' & _ & _ & Hnet & Hstrides & Hchannels & Hbody).
  fold multi in Hstrides, Hchannels, Hbody.
  split; [done|]. split; [done|].
  unfold Joiner_forward; simpl. subst net. rewrite Hnet in Hx |- *.
  rewrite (BackboneBase_forward_valid bb net' multi x Hbody Hx). simpl.
  rewrite sorted_levels_of, Hstrides, Hchannels. eexists _, _. split; [done|].
  rewrite length_map. by destruct multi.
Qed.

End extractor_more.

(** ** The further statements on the small trunk *)

Module ToyBuild.

(** The arguments of a run: [--lr_backbone], [--num_feature_levels],
    [--backbone] and [--dilation]. *)
Record args : Type := mk_args {
  lr_backbone : float;
  num_feature_levels : Z;
  backbone_name : string;
  dilation : bool
}.

Definition build_position_encoding (a : args)
    : result (@NestedTensor nat → @FloatTensor nat) :=
  Ok Toy.position_embedding.

(** Two extractors that tap the same two activations in opposite orders. *)
Definition tapped_first (multi : bool) : @BackboneBase nat :=
  mkBackboneBase (Toy.resnet false) [8; 16]%Z [512; 1024]%Z
    (mkILG (if multi
            then [("a", λ _, Toy.image); ("b", λ _, Toy.stride2 Toy.image)]
            else [("b", λ _, Toy.stride2 Toy.image); ("a", λ _, Toy.image)])
       [("a", "0"); ("b", "1")]).

Example tapped_in_opposite_orders :
  ∃ xs xs', BackboneBase_forward (tapped_first true) Toy.batch = Ok xs
    ∧ BackboneBase_forward (tapped_first false) Toy.batch = Ok xs'
    ∧ dict_keys xs = ["0"; "1"] ∧ dict_keys xs' = ["1"; "0"].
Proof. by eexists _, _. Qed.

End ToyBuild.

Lemma support_branch_matches_primary_witness :
  support_encoding_net (Toy.backbone true false) Toy.batch true
    = BackboneBase_forward (Toy.backbone true false) Toy.batch
  ∧ Joiner_forward_supp_branch Toy.cast
      (Joiner_init (Toy.backbone true false) Toy.position_embedding) Toy.batch true
    = Joiner_forward Toy.cast
        (Joiner_init (Toy.backbone true false) Toy.position_embedding) Toy.batch.
Proof.
  apply (support_branch_matches_primary Toy.cast Toy.torchvision_models true
           "resnet50" false true false).
  - reflexivity.
  - by eexists.
Defined.

Lemma single_level_is_deepest_witness :
  ∃ l0 l1 l2,
    levels_of (Toy.resnet false) true Toy.batch = [("0", l0); ("1", l1); ("2", l2)]
    ∧ support_encoding_net (Toy.backbone true false) Toy.batch false = Ok [("0", l2)].
Proof.
  apply (single_level_is_deepest (Toy.backbone true false) Toy.batch). reflexivity.
Defined.

Lemma level_masks_read_input_mask_witness :
  Forall (λ kv : string * @NestedTensor nat,
            ∃ ml, mask kv.2 = Some ml ∧ mB ml = mB Toy.padding
              ∧ ∀ b i j, ∃ i' j', i' < mH Toy.padding ∧ j' < mW Toy.padding
                  ∧ mat ml b i j = mat Toy.padding b i' j')
    (levels_of (Toy.resnet false) true Toy.batch)
  ∧ ∀ v, (∀ b i j, i < mH Toy.padding → j < mW Toy.padding → mat Toy.padding b i j = v) →
      Forall (λ kv : string * @NestedTensor nat,
                ∃ ml, mask kv.2 = Some ml ∧ ∀ b i j, mat ml b i j = v)
        (levels_of (Toy.resnet false) true Toy.batch).
Proof.
  apply (level_masks_read_input_mask (Toy.backbone true false) Primary Toy.batch).
  - reflexivity.
  - reflexivity.
Defined.

Lemma interpolate_mask_same_size_witness :
  ∃ ml, interpolate_mask (Some Toy.padding) Toy.image = Ok ml
    ∧ (mB ml, mH ml, mW ml) = (mB Toy.padding, mH Toy.padding, mW Toy.padding)
    ∧ ∀ b i j, i < mH Toy.padding → j < mW Toy.padding →
        mat ml b i j = mat Toy.padding b i j.
Proof.
  apply (interpolate_mask_same_size Toy.padding Toy.image).
  - vm_compute. repeat split; lia.
  - reflexivity.
Defined.

Lemma joiner_order_independent_witness :
  compose Toy.cast (Joiner_init (ToyBuild.tapped_first false) Toy.position_embedding)
    Primary Toy.batch
  = compose Toy.cast (Joiner_init (ToyBuild.tapped_first true) Toy.position_embedding)
      Primary Toy.batch.
Proof.
  apply (joiner_order_independent Toy.cast
           (Joiner_init (ToyBuild.tapped_first true) Toy.position_embedding)
           (Joiner_init (ToyBuild.tapped_first false) Toy.position_embedding)
           Primary Primary Toy.batch Toy.batch
           [("0", level_of Toy.batch Toy.image);
            ("1", level_of Toy.batch (Toy.stride2 Toy.image))]
           [("1", level_of Toy.batch (Toy.stride2 Toy.image));
            ("0", level_of Toy.batch Toy.image)]).
  - reflexivity.
  - reflexivity.
  - reflexivity.
  - apply Permutation_swap.
Defined.

Lemma build_backbone_metadata_aligned_witness :
  let self := Joiner_init (Toy.backbone true true) Toy.position_embedding in
  joiner_strides self = [8; 16; 16]%Z
  ∧ joiner_num_channels self = [512; 1024; 2048]%Z
  ∧ ∃ out pos, Joiner_forward Toy.cast self Toy.batch = Ok (out, pos)
      ∧ length out = length (joiner_strides self)
      ∧ length pos = length (joiner_strides self)
      ∧ length (joiner_num_channels self) = length (joiner_strides self)
      ∧ map tensors out =
          [tap_layer2 (Toy.resnet true) Toy.image; tap_layer3 (Toy.resnet true) Toy.image;
           tap_layer4 (Toy.resnet true) Toy.image].
Proof.
  intros self.
  apply (build_backbone_metadata_aligned Toy.cast Toy.torchvision_models true
           ToyBuild.args ToyBuild.lr_backbone ToyBuild.num_feature_levels
           ToyBuild.backbone_name ToyBuild.dilation ToyBuild.build_position_encoding
           (ToyBuild.mk_args 0%float 4 "resnet50" true) self Toy.batch).
  - reflexivity.
  - exists Toy.padding. split; [reflexivity|]. vm_compute. repeat split; lia.
Defined.

(** ** The outcomes of construction *)

Section construction_more.
Context {elt : Type}.
Variable torchvision_models : string → list bool → bool → result (@ResNet elt).
Variable is_main_process : bool.

(** X18: construction has three outcomes.  An exception of torchvision
    is raised as it is; for a trunk torchvision built, the names [resnet18]
    and [resnet34] fail the assertion; every other name gives an extractor
    around that trunk.  No other exception is raised: the names of
    [return_layers] are children of the trunk, and the list of strides is
    never empty when its last entry is halved. *)
Theorem Backbone_init_outcomes (name : string) (train_backbone multi dilation : bool) :
  let init :=
    Backbone_init torchvision_models is_main_process name train_backbone multi dilation in
  let built := torchvision_models name [false; false; dilation] is_main_process in
  (∀ e, built = Raise e → init = Raise e)
  ∧ (∀ net, built = Ok net → name = "resnet18" ∨ name = "resnet34" →
       init = Raise (AssertionError
                       "number of channels are hard coded, cannot use res18 & res34."))
  ∧ (∀ net, built = Ok net → name ≠ "resnet18" → name ≠ "resnet34" →
       ∃ self, init = Ok self ∧ backbone self = net ∧ body_taps self net multi)
  ∧ (∀ e, init = Raise e →
       built = Raise e
       ∨ e = AssertionError "number of channels are hard coded, cannot use res18 & res34.").
Proof.
  intros init built. unfold init, built, Backbone_init.
  destruct (torchvision_models _ _ _) as [net|e0]; simpl.
  2: { split; [by intros e [= <-]|]. split; [by intros ? [=]|].
       split; [by intros ? [=]|]. intros e [= <-]. by left. }
  destruct (BackboneBase_init_Ok net train_backbone multi)
    as (base & Hbase & Hnet & Hstrides & _ & Hbody).
  rewrite Hbase. simpl.
  assert (∃ strides', halve_last_stride (strides base) = Ok strides') as [strides' Hhalve].
  { rewrite Hstrides. destruct multi; by eexists. }
  rewrite Hhalve. simpl.
  split; [by intros ? [=]|]. split; [|split].
  - intros _ _ Hname. rewrite bool_decide_eq_true_2; [done|].
    rewrite !elem_of_cons. tauto.
  - intros ? [= <-] H18 H34. rewrite bool_decide_eq_false_2; simpl.
    + destruct dilation; simpl; by eexists.
    + rewrite !elem_of_cons, elem_of_nil. tauto.
  - intros e. case_bool_decide; simpl.
    + intros [= <-]. by right.
    + by destruct dilation.
Qed.

End construction_more.
